(** * ExpenseDashboard: the derived metrics and the persistence contract

    A shallow embedding of [src/components/ExpenseDashboard.tsx].

    - JavaScript numbers are IEEE 754 binary64 values: Rocq's primitive
      [float], with its own [+], [/], [*], [<?], [=?].
    - Every [useState] cell is a field of [State]; every [useMemo] is a
      function of its dependency list; every handler and effect is a
      function on [State] (and on [Storage] where it touches
      [window.localStorage]).
    - A text that the component only ever reads through a platform parser
      ([Number(amount)], [Number(storedBudget)], [JSON.parse(storedExpenses)])
      is represented by what that parser returns on it.
    - A string holds the UTF-8 bytes of the JavaScript string: [trim]
      strips every white space and line terminator of ECMAScript.
      [localeCompare] is the code-point order, which is the collation
      order on the digits-and-hyphen texts [YYYY-MM-DD] and [YYYY-MM];
      every theorem that depends on that order asks for dates of that
      form.
    - An exception inside the hydration [try] is a [Throw] of the
      [Completion] type; [crypto.randomUUID()] and [new Date()] are
      inputs, and so is the range of days that a [Date] can hold.
    - What was read from storage is described as found, not as typed:
      the cast [as Expense[]] checks nothing. *)

From Stdlib Require Import ZArith QArith Qabs.
From Stdlib Require Import List String Ascii Bool Lia.
From Stdlib Require Import Floats Sorting.Sorted Sorting.Permutation.
Import ListNotations.

Set Warnings "-inexact-float".

(** ** The platform: numbers, strings, dates, arrays *)

Module JS.

Definition number := float.

(** [Number.isNaN(x)]. *)
Definition Number_isNaN (x : number) : bool := is_nan x.

Definition isNegativeZero (x : number) : bool := is_zero x && get_sign x.
Definition isPositiveZero (x : number) : bool := is_zero x && negb (get_sign x).

(** [Math.min(a, b)]: NaN when either argument is NaN; [-0] is below [+0]. *)
Definition Math_min (a b : number) : number :=
  if is_nan a || is_nan b then nan
  else if (b <? a)%float || (isNegativeZero b && isPositiveZero a) then b
  else a.

(** [Math.max(a, b)]: NaN when either argument is NaN; [+0] is above [-0]. *)
Definition Math_max (a b : number) : number :=
  if is_nan a || is_nan b then nan
  else if (a <? b)%float || (isPositiveZero b && isNegativeZero a) then b
  else a.

(** The double nearest to the integer [z]. *)
Definition ofZ (z : Z) : number := SF2Prim (binary_normalize prec emax z 0 false).

(** The double nearest to [n / 100], for an integer [n > 0]. *)
Definition hundredths (s : bool) (n : positive) : number :=
  SF2Prim (SFdiv prec emax (S754_finite s n 0) (S754_finite false 100 0)).

(** [Number(x.toFixed(2))].  [toFixed(2)] takes the integer [n] for which
    [n / 100 - |x|] is as close to zero as possible (the larger [n] on a
    tie), computed on the exact value [m * 2^e] of the double, and prints
    it with two decimals and the sign of [x]; from [1e21] on it prints [x]
    itself.  [Number] then reads the decimal back to the nearest double. *)
Definition toFixed2 (x : number) : number :=
  match Prim2SF x with
  | S754_zero _ => 0%float
  | S754_infinity _ | S754_nan => x
  | S754_finite s m e =>
      if (1e21 <=? abs x)%float then x
      else
        let n :=
          if (0 <=? e)%Z then (Z.pos m * 2 ^ e * 100)%Z
          else ((Z.pos m * 200 + 2 ^ (- e)) / 2 ^ (1 - e))%Z in
        match n with
        | Z.pos p => hundredths s p
        | _ => if s then (-0)%float else 0%float
        end
  end.

(** A string holds the UTF-8 bytes of the JavaScript string.  The code
    points [String.prototype.trim] strips are WhiteSpace and LineTerminator
    of ECMAScript: TAB, LF, VT, FF, CR, SPACE on one byte; U+00A0 on two
    bytes; U+1680, U+2000 to U+200A, U+2028, U+2029, U+202F, U+205F,
    U+3000 and U+FEFF on three bytes. *)
Definition isWhiteSpace1 (c : ascii) : bool :=
  match nat_of_ascii c with
  | 9 | 10 | 11 | 12 | 13 | 32 => true
  | _ => false
  end%nat.

Definition isWhiteSpace2 (c1 c2 : ascii) : bool :=
  match nat_of_ascii c1, nat_of_ascii c2 with
  | 194, 160 => true
  | _, _ => false
  end%nat.

Definition isWhiteSpace3 (c1 c2 c3 : ascii) : bool :=
  let n3 := nat_of_ascii c3 in
  match nat_of_ascii c1, nat_of_ascii c2 with
  | 225, 154 => (n3 =? 128)%nat
  | 226, 128 =>
      ((128 <=? n3) && (n3 <=? 138) || (n3 =? 168) || (n3 =? 169)
       || (n3 =? 175))%nat
  | 226, 129 => (n3 =? 159)%nat
  | 227, 128 => (n3 =? 128)%nat
  | 239, 187 => (n3 =? 191)%nat
  | _, _ => false
  end%nat.

Fixpoint trimStart (s : string) : string :=
  match s with
  | EmptyString => s
  | String c1 s1 =>
      if isWhiteSpace1 c1 then trimStart s1
      else
        match s1 with
        | EmptyString => s
        | String c2 s2 =>
            if isWhiteSpace2 c1 c2 then trimStart s2
            else
              match s2 with
              | EmptyString => s
              | String c3 s3 =>
                  if isWhiteSpace3 c1 c2 c3 then trimStart s3 else s
              end
        end
  end.

Definition reverse (s : string) : string :=
  string_of_list_ascii (rev (list_ascii_of_string s)).

(** The same from the end: [s] is the string read backwards, so the last
    byte of each encoding comes first. *)
Fixpoint trimStartReversed (s : string) : string :=
  match s with
  | EmptyString => s
  | String c1 s1 =>
      if isWhiteSpace1 c1 then trimStartReversed s1
      else
        match s1 with
        | EmptyString => s
        | String c2 s2 =>
            if isWhiteSpace2 c2 c1 then trimStartReversed s2
            else
              match s2 with
              | EmptyString => s
              | String c3 s3 =>
                  if isWhiteSpace3 c3 c2 c1 then trimStartReversed s3 else s
              end
        end
  end.

Definition trimEnd (s : string) : string :=
  reverse (trimStartReversed (reverse s)).

(** [s.trim()]. *)
Definition trim (s : string) : string := trimEnd (trimStart s).

(** [s.startsWith(p)]. *)
Definition startsWith (s p : string) : bool := String.prefix p s.

(** [a.localeCompare(b)]: negative, zero or positive.  The order is the
    platform's collation; on texts of digits and hyphens in one fixed
    layout, such as the dates [YYYY-MM-DD] and the month keys [YYYY-MM],
    it is the code-point order, which is what this function computes.
    Each statement that rests on the order asks for such dates. *)
Definition localeCompare (a b : string) : Z :=
  match String.compare a b with
  | Lt => -1
  | Eq => 0
  | Gt => 1
  end%Z.

(** [Array.prototype.sort(cmp)]: a stable sort; [x] goes before [y] when
    [cmp x y <= 0] and [x] came first. *)
Section Sort.
Context {A : Type} (cmp : A -> A -> Z).

Fixpoint insert (x : A) (l : list A) : list A :=
  match l with
  | [] => [x]
  | y :: l' => if (cmp x y <=? 0)%Z then x :: l else y :: insert x l'
  end.

Definition Array_sort (l : list A) : list A := fold_right insert [] l.
End Sort.

(** [array.includes(x)] on strings. *)
Definition includes (array : list string) (x : string) : bool :=
  existsb (String.eqb x) array.

(** [Array.from(new Set(array))]: the distinct strings of [array], each at
    the place of its first occurrence. *)
Definition Set_add (set : list string) (x : string) : list string :=
  if includes set x then set else set ++ [x].

Definition Set_from (array : list string) : list string :=
  fold_left Set_add array [].

(** [s.slice(0, n)], where the first [n] characters of [s] are ASCII, as
    those of a date are: the count is in bytes. *)
Definition slice0 (n : nat) (s : string) : string := String.substring 0 n s.

(** Calendar of [Date]: the proleptic Gregorian calendar. *)
Definition isLeapYear (y : Z) : bool :=
  ((y mod 4 =? 0) && negb (y mod 100 =? 0) || (y mod 400 =? 0))%Z.

(** Days of month [m] (0 = January .. 11 = December) of year [y]. *)
Definition daysOfMonth (y m : Z) : Z :=
  match m with
  | 1 => if isLeapYear y then 29 else 28
  | 3 | 5 | 8 | 10 => 30
  | _ => 31
  end%Z.

(** [ToIntegerOrInfinity(x)] where it is an integer: [x] without its
    fraction; [None] for NaN and the infinities. *)
Definition truncate (x : number) : option Z :=
  match Prim2SF x with
  | S754_zero _ => Some 0%Z
  | S754_finite s m e =>
      let v := if (0 <=? e)%Z then (Z.pos m * 2 ^ e)%Z
               else (Z.pos m / 2 ^ (- e))%Z in
      Some (if s then (- v)%Z else v)
  | S754_infinity _ | S754_nan => None
  end.

(** [new Date(year, month, 0).getDate()], in the local time zone.  The
    arguments lose their fraction; a year from 0 to 99 means 1900 + year;
    the month overflows into the year; day 0 is the last day of the month
    before.  The date is invalid, and [getDate()] is NaN, when an
    argument is NaN or infinite or when the day falls outside the time
    values a [Date] can hold (about 273,790 years either side of 1970,
    the exact bounds depending on the time zone): [timeInRange ym mn]
    is the platform's answer for day 0 of month [mn] of year [ym]. *)
Section Calendar.
Variable timeInRange : Z -> Z -> bool.

Definition Date_day0_getDate (year month : number) : number :=
  match truncate year, truncate month with
  | Some y, Some m =>
      let yr := if ((0 <=? y) && (y <=? 99))%Z then (1900 + y)%Z else y in
      let ym := (yr + m / 12)%Z in
      let mn := (m mod 12)%Z in
      if timeInRange ym mn then
        ofZ (if (mn =? 0)%Z then daysOfMonth (ym - 1) 11
             else daysOfMonth ym (mn - 1))
      else nan
  | _, _ => nan
  end.
End Calendar.

(** What [new Date()] answers to the three getters the component calls. *)
Record Date := {
  getFullYear : Z;
  getMonth : Z;
  getDate : Z
}.

End JS.

Import JS.

Open Scope float_scope.

(** ** Data model *)

(** [ExpenseCategory] is a union of nine string literals.  The type is
    erased when the program runs: a record read back from storage carries
    whatever string (here, whatever bytes) its [category] held. *)
Definition ExpenseCategory := string.

Definition Housing : ExpenseCategory := "Housing"%string.
Definition Food : ExpenseCategory := "Food"%string.
Definition Transportation : ExpenseCategory := "Transportation"%string.
Definition Utilities : ExpenseCategory := "Utilities"%string.
Definition Health : ExpenseCategory := "Health"%string.
Definition Entertainment : ExpenseCategory := "Entertainment"%string.
Definition Subscriptions : ExpenseCategory := "Subscriptions"%string.
Definition Savings : ExpenseCategory := "Savings"%string.
Definition Other : ExpenseCategory := "Other"%string.

(** [a === b] on property keys. *)
Definition category_eqb (a b : ExpenseCategory) : bool := String.eqb a b.

Record Expense := {
  id : string;
  description : string;
  category : ExpenseCategory;
  amount : number;
  date : string;
  notes : option string   (* [notes?: string]; [None] is [undefined] *)
}.

Definition CATEGORY_PRESETS : list ExpenseCategory :=
  [Housing; Food; Transportation; Utilities; Health; Entertainment;
   Subscriptions; Savings; Other].

(** ** The derived values ([useMemo]s and plain consts of the render) *)

Definition filteredExpenses (expenses : list Expense) (selectedMonth : string)
  : list Expense :=
  filter (fun item => startsWith (date item) selectedMonth) expenses.

Definition sortByDateDescending (l : list Expense) : list Expense :=
  Array_sort (fun a b => localeCompare (date b) (date a)) l.

Definition totalSpent (filteredExpenses : list Expense) : number :=
  fold_left (fun sum current => sum + amount current) filteredExpenses 0.

(** [Record<ExpenseCategory, number>], as the object literal lists its keys. *)
Definition Totals := list (ExpenseCategory * number).

(** [totals[c] += a].  On a key that is none of the nine, JavaScript
    creates the property with [undefined + a], that is NaN, here after
    the nine (a key that reads as an array index would come before them,
    and a key that objects inherit, such as ["constructor"], would get a
    string); the statements about [categoryTotals] ask for records of
    the nine categories. *)
Fixpoint addTo (c : ExpenseCategory) (a : number) (totals : Totals) : Totals :=
  match totals with
  | [] => [(c, nan)]
  | (k, v) :: rest =>
      if category_eqb k c then (k, v + a) :: rest else (k, v) :: addTo c a rest
  end.

Definition categoryTotals (filteredExpenses : list Expense) : Totals :=
  fold_left (fun totals item => addTo (category item) (amount item) totals)
    filteredExpenses
    [(Housing, 0); (Food, 0); (Transportation, 0); (Utilities, 0); (Health, 0);
     (Entertainment, 0); (Subscriptions, 0); (Savings, 0); (Other, 0)].

(** [totals[c]]. *)
Fixpoint get (c : ExpenseCategory) (totals : Totals) : option number :=
  match totals with
  | [] => None
  | (k, v) :: rest => if category_eqb k c then Some v else get c rest
  end.

(** [monthDate]: [parts] is [selectedMonth.split("-").map(Number)], each
    piece of the text by its reading as a number (NaN when it is none); a
    destructured element past the end of the array is [undefined]. *)
Record MonthDate := {
  year : option number;
  monthIndex : option number
}.

Definition monthDate (parts : list number) : MonthDate :=
  let year := nth_error parts 0 in
  let month := nth_error parts 1 in
  {| year := year;
     monthIndex := Some (match month with Some m => m | None => 1 end - 1) |}.

Section Projection.
Variable timeInRange : Z -> Z -> bool.

Definition daysElapsedInMonth (monthDate : MonthDate) (todayDate : Date)
  : number :=
  match year monthDate, monthIndex monthDate with
  | Some y, Some mi =>
      let isCurrentMonth :=
        (ofZ (getFullYear todayDate) =? y) && (ofZ (getMonth todayDate) =? mi) in
      if isCurrentMonth then ofZ (getDate todayDate)
      else Date_day0_getDate timeInRange y (mi + 1)
  | _, _ => 30
  end.

(** The [daysInMonth] const inside [projectedSpending]. *)
Definition daysInMonth (monthDate : MonthDate) (today : Date) : number :=
  Date_day0_getDate timeInRange
    (match year monthDate with Some y => y | None => ofZ (getFullYear today) end)
    (match monthIndex monthDate with Some mi => mi | None => 0 end + 1).

Definition projectedSpending (filteredExpenses : list Expense)
    (totalSpent : number) (daysElapsedInMonth : number) (monthDate : MonthDate)
    (today : Date) : number :=
  if (List.length filteredExpenses =? 0)%nat then 0
  else
    let average := totalSpent / daysElapsedInMonth in
    average * daysInMonth monthDate today.
End Projection.

Definition budgetUtilization (budget totalSpent : number) : number :=
  if budget =? 0 then 0 else Math_min ((totalSpent / budget) * 100) 100.

(** ** Component state ([useState] cells) *)

(** The cells behind the add-expense form.  [amount] stands for the text
    of the amount field through its only reader, [Number(amount)]; the
    cleared field [""] reads [0]. *)
Module Form.
Record t := {
  description : string;
  amount : number;
  category : ExpenseCategory;
  date : string;
  notes : string
}.
End Form.

Record State := {
  expenses : list Expense;
  budget : number;
  selectedMonth : string;
  form : Form.t;
  error : string;
  isReady : bool
}.

(** The first render: [useState] initial values.  [defaultMonth] and the
    form's initial date come from the clock. *)
Definition initialState (defaultMonth todayISO : string) : State :=
  {| expenses := [];
     budget := 2000;
     selectedMonth := defaultMonth;
     form := {| Form.description := ""; Form.amount := 0; Form.category := Food;
                Form.date := todayISO; Form.notes := "" |};
     error := "";
     isReady := false |}.

Definition setExpenses (f : list Expense -> list Expense) (st : State) : State :=
  {| expenses := f (expenses st); budget := budget st;
     selectedMonth := selectedMonth st; form := form st; error := error st;
     isReady := isReady st |}.

Definition setBudget (b : number) (st : State) : State :=
  {| expenses := expenses st; budget := b; selectedMonth := selectedMonth st;
     form := form st; error := error st; isReady := isReady st |}.

Definition setForm (f : Form.t) (st : State) : State :=
  {| expenses := expenses st; budget := budget st;
     selectedMonth := selectedMonth st; form := f; error := error st;
     isReady := isReady st |}.

Definition setError (e : string) (st : State) : State :=
  {| expenses := expenses st; budget := budget st;
     selectedMonth := selectedMonth st; form := form st; error := e;
     isReady := isReady st |}.

Definition setIsReady (r : bool) (st : State) : State :=
  {| expenses := expenses st; budget := budget st;
     selectedMonth := selectedMonth st; form := form st; error := error st;
     isReady := r |}.

(** ** Handlers *)

Definition EmptyDescription : string :=
  "Add a description to remember what you spent on.".
Definition InvalidAmount : string := "Enter a positive amount.".

(** [handleSubmit]; [uuid] is what [crypto.randomUUID()] returns. *)
Definition handleSubmit (uuid : string) (st : State) : State :=
  let st := setError "" st in
  let f := form st in
  let parsedAmount := Form.amount f in
  if String.eqb (trim (Form.description f)) "" then setError EmptyDescription st
  else if Number_isNaN parsedAmount || (parsedAmount <=? 0) then
    setError InvalidAmount st
  else
    let expense :=
      {| id := uuid;
         description := trim (Form.description f);
         category := Form.category f;
         amount := toFixed2 parsedAmount;
         date := Form.date f;
         notes := if String.eqb (trim (Form.notes f)) "" then None
                  else Some (trim (Form.notes f)) |} in
    let st := setExpenses (fun prev => expense :: prev) st in
    setForm {| Form.description := ""; Form.amount := 0;
               Form.category := Form.category f; Form.date := Form.date f;
               Form.notes := "" |} st.

Definition handleDelete (id' : string) (st : State) : State :=
  setExpenses (fun prev => filter (fun item => negb (String.eqb (id item) id')) prev) st.

Definition handleBudgetChange (value : number) (st : State) : State :=
  setBudget (toFixed2 value) st.

(** ** [window.localStorage] *)

(** One element of the array that [JSON.parse(storedExpenses)] returns.
    The cast [as Expense[]] checks nothing, so an object is described by
    what the effect reads of it: [so_amount] is [Some a] when
    [typeof item.amount === "number"] and [None] otherwise; [so_id] is
    [Some s] when [item.id] is the string [s], or a truthy value of
    another type that converts to the string [s] (ids are only ever
    compared), and [None] when it is missing or falsy otherwise;
    [so_date] is [Some d] when [item.date] is the string [d] and [None]
    when it is anything else, on which [.localeCompare] is no function;
    [so_category] is the property key that [item.category] converts to.
    [so_description] and [so_notes] are only carried along, as text. *)
Record StoredObject := {
  so_id : option string;
  so_description : string;
  so_category : ExpenseCategory;
  so_amount : option number;
  so_date : option string;
  so_notes : option string
}.

Inductive StoredEntry :=
| EntryNull                          (* [null]: reading [item.amount] throws *)
| EntryPrimitive                     (* a number, string or boolean: [item.amount] is [undefined] *)
| EntryObject (o : StoredObject).

(** What is under [STORAGE_KEYS.expenses]. *)
Inductive StoredExpenses :=
| ExpensesAbsent                     (* [getItem] returns [null] *)
| ExpensesEmptyText                  (* [""], falsy *)
| ExpensesNotJSON                    (* [JSON.parse] throws *)
| ExpensesNotArray                   (* parses, but [parsed.filter] is no function *)
| ExpensesArray (parsed : list StoredEntry).

(** What is under [STORAGE_KEYS.budget]; a non-empty text is given by its
    reading [Number(storedBudget)]. *)
Inductive StoredBudget :=
| BudgetAbsent
| BudgetEmptyText
| BudgetText (parsedBudget : number).

Definition STORAGE_KEYS_expenses : string := "minimalist-expense-tracker:v1".
Definition STORAGE_KEYS_budget : string := "minimalist-expense-tracker:budget".

Inductive StorageCall :=
| GetItem (key : string)
| SetItem (key : string).

(** The store and the calls it has served, the latest first. *)
Record Storage := {
  storedExpenses : StoredExpenses;
  storedBudget : StoredBudget;
  calls : list StorageCall
}.

Definition getItem_expenses (storage : Storage) : StoredExpenses * Storage :=
  (storedExpenses storage,
   {| storedExpenses := storedExpenses storage;
      storedBudget := storedBudget storage;
      calls := GetItem STORAGE_KEYS_expenses :: calls storage |}).

Definition getItem_budget (storage : Storage) : StoredBudget * Storage :=
  (storedBudget storage,
   {| storedExpenses := storedExpenses storage;
      storedBudget := storedBudget storage;
      calls := GetItem STORAGE_KEYS_budget :: calls storage |}).

Definition setItem_expenses (v : StoredExpenses) (storage : Storage) : Storage :=
  {| storedExpenses := v;
     storedBudget := storedBudget storage;
     calls := SetItem STORAGE_KEYS_expenses :: calls storage |}.

Definition setItem_budget (v : StoredBudget) (storage : Storage) : Storage :=
  {| storedExpenses := storedExpenses storage;
     storedBudget := v;
     calls := SetItem STORAGE_KEYS_budget :: calls storage |}.

(** A [try] body either completes or throws. *)
Inductive Completion (A : Type) :=
| Normal (a : A)
| Throw.
Arguments Normal {A} a.
Arguments Throw {A}.

Definition bind {A B : Type} (c : Completion A) (k : A -> Completion B)
  : Completion B :=
  match c with
  | Normal a => k a
  | Throw => Throw
  end.

Notation "x <- c ;; k" := (bind c (fun x => k))
  (at level 61, c at next level, right associativity).

(** [typeof item.amount === "number" && Boolean(item.id)]. *)
Definition wellFormed (o : StoredObject) : bool :=
  match so_amount o, so_id o with
  | Some _, Some s => negb (String.eqb s "")
  | _, _ => false
  end.

(** [parsed.filter(item => typeof item.amount === "number" && Boolean(item.id))]:
    the elements kept, as they were found. *)
Fixpoint filterWellFormed (parsed : list StoredEntry)
  : Completion (list StoredObject) :=
  match parsed with
  | [] => Normal []
  | EntryNull :: _ => Throw
  | EntryPrimitive :: rest => filterWellFormed rest
  | EntryObject o :: rest =>
      kept <- filterWellFormed rest ;;
      Normal (if wellFormed o then o :: kept else kept)
  end.

Definition hasDate (o : StoredObject) : bool :=
  match so_date o with
  | Some _ => true
  | None => false
  end.

(** A kept element, read as the [Expense] that the type guard of the
    filter says it is. *)
Definition asExpense (o : StoredObject) : Expense :=
  {| id := match so_id o with Some s => s | None => "" end;
     description := so_description o;
     category := so_category o;
     amount := match so_amount o with Some a => a | None => nan end;
     date := match so_date o with Some d => d | None => "" end;
     notes := so_notes o |}.

(** [kept.sort((a, b) => b.date.localeCompare(a.date))].  The comparator
    throws a TypeError when the element it receives as [b] has no string
    [date].  Which calls the sort makes is up to the engine (none on an
    array of one element); here the sort throws as soon as one kept
    element lacks a string date, and the statements about what is kept
    leave such arrays out. *)
Definition sortStored (kept : list StoredObject) : Completion (list Expense) :=
  if forallb hasDate kept then Normal (sortByDateDescending (map asExpense kept))
  else Throw.

(** The body of the [try] block of the hydration effect, after its two
    [getItem] calls. *)
Definition hydrateTry (storedExpenses : StoredExpenses)
    (storedBudget : StoredBudget) (st : State) : Completion State :=
  st <- match storedExpenses with
        | ExpensesAbsent | ExpensesEmptyText => Normal st
        | ExpensesNotJSON | ExpensesNotArray => Throw
        | ExpensesArray parsed =>
            kept <- filterWellFormed parsed ;;
            sorted <- sortStored kept ;;
            Normal (setExpenses (fun _ => sorted) st)
        end ;;
  Normal match storedBudget with
         | BudgetAbsent | BudgetEmptyText => st
         | BudgetText parsedBudget =>
             if negb (Number_isNaN parsedBudget) then setBudget parsedBudget st
             else st
         end.

(** The hydration effect; [window] is [None] when [typeof window] is
    ["undefined"]. *)
Definition hydrate (window : option Storage) (st : State)
  : State * option Storage :=
  match window with
  | None => (st, None)
  | Some storage =>
      let (storedExpenses, storage) := getItem_expenses storage in
      let (storedBudget, storage) := getItem_budget storage in
      (setIsReady true
         match hydrateTry storedExpenses storedBudget st with
         | Normal st' => st'
         | Throw => st               (* [console.error], nothing set *)
         end,
       Some storage)
  end.

(** What a number reads as after [String(x)] or [JSON.stringify(x)] and
    [Number] or [JSON.parse]: itself, but [-0] prints as ["0"]. *)
Definition printed (x : number) : number := if isNegativeZero x then 0 else x.

(** [JSON.parse(JSON.stringify(e))]: NaN and the infinities print as
    [null]; an [undefined] field is left out. *)
Definition stringifyExpense (e : Expense) : StoredEntry :=
  EntryObject
    {| so_id := Some (id e);
       so_description := description e;
       so_category := category e;
       so_amount := if is_finite (amount e) then Some (printed (amount e)) else None;
       so_date := Some (date e);
       so_notes := notes e |}.

(** The two save effects; each returns the storage it leaves. *)
Definition saveExpenses (window : option Storage) (st : State) : option Storage :=
  if negb (isReady st) then window
  else
    match window with
    | None => None
    | Some storage =>
        Some (setItem_expenses (ExpensesArray (map stringifyExpense (expenses st))) storage)
    end.

Definition saveBudget (window : option Storage) (st : State) : option Storage :=
  if negb (isReady st) then window
  else
    match window with
    | None => None
    | Some storage => Some (setItem_budget (BudgetText (printed (budget st))) storage)
    end.

(** ** The running component *)

Record World := {
  window : option Storage;
  state : State
}.

(** What can happen to a mounted component: one of its three effects
    runs, or the user acts.  Effects are not tied to a schedule here: any
    of them may run at any point, any number of times. *)
Inductive Event :=
| RunHydrate
| RunSaveExpenses
| RunSaveBudget
| Submit (uuid : string)
| Delete (id : string)
| BudgetChange (value : number)
| Edit (f : Form.t)
| SelectMonth (m : string).

Definition step (w : World) (ev : Event) : World :=
  match ev with
  | RunHydrate =>
      let (st, win) := hydrate (window w) (state w) in
      {| window := win; state := st |}
  | RunSaveExpenses =>
      {| window := saveExpenses (window w) (state w); state := state w |}
  | RunSaveBudget =>
      {| window := saveBudget (window w) (state w); state := state w |}
  | Submit uuid => {| window := window w; state := handleSubmit uuid (state w) |}
  | Delete id => {| window := window w; state := handleDelete id (state w) |}
  | BudgetChange value =>
      {| window := window w; state := handleBudgetChange value (state w) |}
  | Edit f => {| window := window w; state := setForm f (state w) |}
  | SelectMonth m =>
      {| window := window w;
         state := {| expenses := expenses (state w); budget := budget (state w);
                     selectedMonth := m; form := form (state w);
                     error := error (state w); isReady := isReady (state w) |} |}
  end.

Definition run (w : World) (events : list Event) : World := fold_left step events w.

(** A browser tab that has just rendered the component for the first time
    over a store holding [se] and [sb]. *)
Definition mounted (se : StoredExpenses) (sb : StoredBudget)
    (defaultMonth todayISO : string) : World :=
  {| window := Some {| storedExpenses := se; storedBudget := sb; calls := [] |};
     state := initialState defaultMonth todayISO |}.

Definition isSetItem (c : StorageCall) : bool :=
  match c with
  | SetItem _ => true
  | GetItem _ => false
  end.

Definition isGetItem (key : string) (c : StorageCall) : bool :=
  match c with
  | GetItem k => String.eqb k key
  | SetItem _ => false
  end.

(** On a history in the order the calls were made: every [setItem] comes
    after a [getItem] of each of the two keys. *)
Fixpoint savesFollowLoad (readExpenses readBudget : bool)
    (history : list StorageCall) : bool :=
  match history with
  | [] => true
  | c :: rest =>
      (negb (isSetItem c) || (readExpenses && readBudget))
      && savesFollowLoad (readExpenses || isGetItem STORAGE_KEYS_expenses c)
           (readBudget || isGetItem STORAGE_KEYS_budget c) rest
  end.

(** ** The rest of the render *)

Definition setSelectedMonth (m : string) (st : State) : State :=
  {| expenses := expenses st; budget := budget st; selectedMonth := m;
     form := form st; error := error st; isReady := isReady st |}.

(** [monthOptions]: the months of the records and [defaultMonth], each
    once, the latest first. *)
Definition monthOptions (expenses : list Expense) (defaultMonth : string)
  : list string :=
  let uniqueMonths :=
    Set_from (map (fun item => slice0 7 (date item)) expenses ++ [defaultMonth]) in
  Array_sort (fun a b => localeCompare b a) uniqueMonths.

(** The effect on [monthOptions, selectedMonth]. *)
Definition selectedMonthEffect (monthOptions : list string)
    (defaultMonth : string) (st : State) : State :=
  if negb (includes monthOptions (selectedMonth st)) then
    setSelectedMonth
      (match monthOptions with
       | first :: _ => first
       | [] => defaultMonth
       end) st
  else st.

(** [[...filteredExpenses].sort((a, b) => b.date.localeCompare(a.date))]. *)
Definition sortedExpenses (filteredExpenses : list Expense) : list Expense :=
  sortByDateDescending filteredExpenses.

(** [Math.max(0, ...Object.values(categoryTotals))]. *)
Definition highestCategoryValue (categoryTotals : Totals) : number :=
  fold_left Math_max (map snd categoryTotals) 0.

Definition remainingBudget (budget totalSpent : number) : number :=
  Math_max (budget - totalSpent) 0.

(** The "Highest spend" label: the reduce over [Object.entries(categoryTotals)]
    when [highestCategoryValue > 0], and [None] for the text ["None"]. *)
Definition topEntry (categoryTotals : Totals) : ExpenseCategory * number :=
  fold_left (fun top current => if snd top <? snd current then current else top)
    categoryTotals (Other, 0).

Definition highestSpend (highestCategoryValue : number) (categoryTotals : Totals)
  : option ExpenseCategory :=
  if 0 <? highestCategoryValue then Some (fst (topEntry categoryTotals))
  else None.

(** ** Vocabulary of the statements *)

(** The doubles [x] with [0 <= x]: both zeros, the positive finite
    doubles and [+infinity]. *)
Definition nonneg (x : spec_float) : bool :=
  match x with
  | S754_zero _ => true
  | S754_infinity s | S754_finite s _ _ => negb s
  | S754_nan => false
  end.

(** A double that is not NaN and carries the sign [sx]. *)
Definition signed (sx : bool) (r : spec_float) : Prop :=
  match r with
  | S754_zero s | S754_infinity s | S754_finite s _ _ => s = sx
  | S754_nan => False
  end.

(** The sum of the values of a totals object, in [Object.values] order. *)
Definition sumOfValues (totals : Totals) : number :=
  fold_left (fun sum kv => sum + snd kv) totals 0.

(** The records of one category. *)
Definition ofCategory (c : ExpenseCategory) (l : list Expense) : list Expense :=
  filter (fun item => category_eqb (category item) c) l.

(** [a] may stand right before [b] in a list ordered by date, most recent
    first: the date of [b] is not after the date of [a]. *)
Definition dateDescending (a b : Expense) : Prop :=
  String.leb (date b) (date a) = true.

(** A date as the date field of the form gives it, [YYYY-MM-DD], and a
    month key, [YYYY-MM]: digits and hyphens at fixed places.  On such
    texts of one form the collation order of [localeCompare] is the
    code-point order. *)
Definition isDigit (c : ascii) : bool :=
  ((48 <=? nat_of_ascii c) && (nat_of_ascii c <=? 57))%nat.

Definition isHyphen (c : ascii) : bool := (nat_of_ascii c =? 45)%nat.

Definition isDate (s : string) : bool :=
  match list_ascii_of_string s with
  | [y1; y2; y3; y4; h1; m1; m2; h2; d1; d2] =>
      forallb isDigit [y1; y2; y3; y4; m1; m2; d1; d2]
      && isHyphen h1 && isHyphen h2
  | _ => false
  end.

Definition isMonthKey (s : string) : bool :=
  match list_ascii_of_string s with
  | [y1; y2; y3; y4; h1; m1; m2] =>
      forallb isDigit [y1; y2; y3; y4; m1; m2] && isHyphen h1
  | _ => false
  end.

(** Every record of the collection is dated [YYYY-MM-DD]. *)
Definition datesFormatted (l : list Expense) : bool :=
  forallb (fun e => isDate (date e)) l.



(** A record that [JSON.stringify] and the hydration filter hand back as
    it is: a finite amount other than [-0] and a non-empty id. *)
Definition survivesStorage (e : Expense) : bool :=
  is_finite (amount e) && negb (isNegativeZero (amount e))
  && negb (String.eqb (id e) "").

(** The entries of a parsed array that the hydration filter keeps: as
    they were found, and as records. *)
Definition keptObjects (parsed : list StoredEntry) : list StoredObject :=
  flat_map (fun entry =>
              match entry with
              | EntryObject o => if wellFormed o then [o] else []
              | _ => []
              end) parsed.

Definition keptEntries (parsed : list StoredEntry) : list Expense :=
  flat_map (fun entry =>
              match entry with
              | EntryObject o => if wellFormed o then [asExpense o] else []
              | _ => []
              end) parsed.

(** Every kept entry of the array has a string [date]. *)
Definition datesTyped (parsed : list StoredEntry) : bool :=
  forallb hasDate (keptObjects parsed).

Definition isNull (entry : StoredEntry) : bool :=
  match entry with
  | EntryNull => true
  | _ => false
  end.

(** [save(collection, budget)]: both save effects of a hydrated component. *)
Definition save (window : option Storage) (st : State) : option Storage :=
  saveBudget (saveExpenses window st) st.

(** [load()]: the hydration effect of a freshly mounted component. *)
Definition load (window : option Storage) (defaultMonth todayISO : string) : State :=
  fst (hydrate window (initialState defaultMonth todayISO)).



(** The stored expenses text can be read through the filter and the sort
    without a throw. *)
Definition expensesReadable (se : StoredExpenses) : bool :=
  match se with
  | ExpensesAbsent | ExpensesEmptyText => true
  | ExpensesNotJSON | ExpensesNotArray => false
  | ExpensesArray parsed => negb (existsb isNull parsed) && datesTyped parsed
  end.




(** What holds of a running component at every point: the calls served
    so far have every [setItem] after both [getItem]s, and once [isReady]
    is set both [getItem]s have been served. *)
Definition loadedBeforeSaving (w : World) : Prop :=
  exists storage,
    window w = Some storage
    /\ savesFollowLoad false false (rev (calls storage)) = true
    /\ (isReady (state w) = true ->
        existsb (isGetItem STORAGE_KEYS_expenses) (calls storage) = true
        /\ existsb (isGetItem STORAGE_KEYS_budget) (calls storage) = true).

(** No value of the list is NaN. *)
Definition allNumbers (values : list number) : bool :=
  forallb (fun v => negb (is_nan v)) values.

(** Month [a] is strictly after month [b] in code-point order. *)
Definition laterMonth (a b : string) : Prop := String.ltb b a = true.

Definition isRunHydrate (ev : Event) : bool :=
  match ev with
  | RunHydrate => true
  | _ => false
  end.

(** Doubles as exact numbers, for the rounding of sums. *)
Module Exact.
Local Open Scope Z_scope.

(** What [n + 1] right shifts of [m] leave: the quotient by [2^(n+1)], the
    last bit shifted out, and whether a bit shifted out before it was set. *)
Definition shrInv (m : Z) (n : nat) (rec : shr_record) : Prop :=
  shr_m rec = m / 2 ^ Z.of_nat (S n)
  /\ exists t, 0 <= t < 2 ^ Z.of_nat n
       /\ m mod 2 ^ Z.of_nat (S n) = (if shr_r rec then 2 ^ Z.of_nat n else 0) + t
       /\ shr_s rec = negb (t =? 0).

(** The last step of [binary_round_aux]: the result from the rounded
    mantissa and its exponent. *)
Definition finish (sx : bool) (p : shr_record * Z) : spec_float :=
  let '(mrs'', e'') := p in
  match shr_m mrs'' with
  | Z0 => S754_zero sx
  | Zpos m => if Z.leb e'' (Z.sub emax prec) then S754_finite sx m e'' else S754_infinity sx
  | _ => S754_nan
  end.

(** The value of a double in units of [2^-1074], the smallest positive
    double: an integer.  0 for NaN and the infinities. *)
Definition scaledSF (x : spec_float) : Z :=
  match x with
  | S754_finite s m e => (if s then -1 else 1) * (Z.pos m * 2 ^ (e + 1074))
  | _ => 0
  end.

(** A zero, or a positive finite double with its exponent in range. *)
Definition nonnegFiniteSF (x : spec_float) : Prop :=
  match x with
  | S754_zero _ => True
  | S754_finite false m e => -1074 <= e
  | _ => False
  end.

Definition scaled (x : float) : Z := scaledSF (Prim2SF x).

Definition nonnegFinite (x : float) : Prop := nonnegFiniteSF (Prim2SF x).

(** The exact sum of a list of doubles, in the same units. *)
Definition total (l : list float) : Z := fold_right (fun a s => scaled a + s) 0 l.

(** The sum as the program computes it: left to right, each addition
    rounded. *)
Definition fsum (l : list float) (acc : float) : float :=
  fold_left (fun s a => (s + a)%float) l acc.

(** The unit as a denominator. *)
Definition quantum : positive := (2 ^ 1074)%positive.

End Exact.

(** The exact value of a double as a fraction: [m * 2^e] with its sign
    for a finite double, 0 for a zero (and for NaN and the infinities,
    which have no value). *)
Definition exact (x : number) : Q :=
  match Prim2SF x with
  | S754_finite s m e =>
      let v := match e with
               | Z0 => Z.pos m # 1
               | Z.pos k => Z.pos (m * 2 ^ k) # 1
               | Z.neg k => Z.pos m # 2 ^ k
               end%Q in
      if s then Qopp v else v
  | _ => 0%Q
  end.

(** The exact sum of the amounts of a collection. *)
Definition sumExact (l : list Expense) : Q :=
  fold_right (fun item sum => (exact (amount item) + sum)%Q) 0%Q l.

(** Every amount is a number [>= 0] other than [Infinity]. *)
Definition amountsFinite (l : list Expense) : bool :=
  forallb (fun item => (0 <=? amount item) && is_finite (amount item)) l.

(** ** Sample data (Scenario B of the specification) *)

Definition rent : Expense :=
  {| id := "e1"; description := "Rent"; category := Housing; amount := 1500;
     date := "2024-06-01"; notes := None |}.

Definition coffee : Expense :=
  {| id := "e2"; description := "Coffee"; category := Food; amount := 4.5;
     date := "2024-06-02"; notes := Some "at the station"%string |}.

Definition june2024 : MonthDate := monthDate [2024; 6].

(** Years that a [Date] holds in every time zone. *)
Definition withinDateRange (ym mn : Z) : bool :=
  ((-271820 <=? ym) && (ym <=? 275759))%Z.

Definition midJune2024 : Date :=
  {| getFullYear := 2024; getMonth := 5; getDate := 15 |}.

(** A month with one amount of 2^53 and two amounts of 1, each accepted by
    the add-expense form as it is. *)
Definition largeJune : list Expense :=
  [ {| id := "e3"; description := "House"; category := Housing;
       amount := 9007199254740992; date := "2024-06-01"; notes := None |};
    {| id := "e4"; description := "Tea"; category := Food; amount := 1;
       date := "2024-06-02"; notes := None |};
    {| id := "e5"; description := "Bun"; category := Food; amount := 1;
       date := "2024-06-03"; notes := None |} ].

(** Form contents: Scenario B's two expenses, and a blank description next
    to an amount text that is no number (Scenario D's ["abc"]). *)
Definition rentForm : Form.t :=
  {| Form.description := " Rent "; Form.amount := 1500; Form.category := Housing;
     Form.date := "2024-06-01"; Form.notes := "  " |}.

Definition coffeeForm : Form.t :=
  {| Form.description := "Coffee"; Form.amount := 4.5; Form.category := Food;
     Form.date := "2024-06-02"; Form.notes := " at the station" |}.

(** An amount text with three decimals, between white space that is not
    ASCII: a no-break space before the description, an ideographic space
    (U+3000) as the notes. *)
Definition teaForm : Form.t :=
  {| Form.description :=
       String (ascii_of_nat 194) (String (ascii_of_nat 160) "Tea ");
     Form.amount := 12.345; Form.category := Food; Form.date := "2024-06-03";
     Form.notes :=
       String (ascii_of_nat 227) (String (ascii_of_nat 128)
         (String (ascii_of_nat 128) "")) |}.

Definition blankForm : Form.t :=
  {| Form.description := "  "; Form.amount := nan; Form.category := Food;
     Form.date := "2024-06-02"; Form.notes := "" |}.

Definition firstRender : State := initialState "2024-06" "2024-06-15".

(** A session: hydrate an empty store, add the coffee, then the rent. *)
Definition twoAdds : list Event :=
  [RunHydrate; Edit coffeeForm; Submit "e2"; Edit rentForm; Submit "e1"].

Definition emptyTab : World := mounted ExpensesAbsent BudgetAbsent "2024-06" "2024-06-15".


(** A store whose budget text is ["-5"]. *)
Definition overdrawn : Storage :=
  {| storedExpenses := ExpensesArray [stringifyExpense rent];
     storedBudget := BudgetText (-5);
     calls := [] |}.


(** The other order: the rent first, then the coffee. *)
Definition twoAddsByDate : list Event :=
  [RunHydrate; Edit rentForm; Submit "e1"; Edit coffeeForm; Submit "e2"].

(** * Facts about doubles *)

Module FloatFacts.

Lemma SFcompare_antisym x y :
  SFcompare y x = option_map CompOpp (SFcompare x y).
Proof.
  destruct x as [sx | sx | | sx mx ex], y as [sy | sy | | sy my ey];
    simpl; try reflexivity;
    try (destruct sx; reflexivity); try (destruct sy; reflexivity);
    try (destruct sx, sy; reflexivity).
  replace (Pos.compare_cont Eq my mx) with (CompOpp (Pos.compare_cont Eq mx my))
    by apply (Pos.compare_cont_antisym mx my Eq).
  rewrite (Z.compare_antisym ex ey).
  destruct sx, sy; try reflexivity;
    destruct (ex ?= ey)%Z; reflexivity.
Qed.

Lemma Prim2SF_nan x : is_nan x = true -> Prim2SF x = S754_nan.
Proof. intros E. unfold Prim2SF. now rewrite E. Qed.

Lemma Prim2SF_not_nan x : is_nan x = false -> Prim2SF x <> S754_nan.
Proof.
  intros H E. unfold is_nan in H.
  rewrite FloatAxioms.eqb_spec, E in H. discriminate.
Qed.

Lemma leb_zero_nonneg x : (0 <=? x) = nonneg (Prim2SF x).
Proof.
  rewrite FloatAxioms.leb_spec.
  change (Prim2SF 0) with (S754_zero false).
  destruct (Prim2SF x) as [s | s | | s m e]; try destruct s; reflexivity.
Qed.

Lemma nonneg_not_nan x : nonneg (Prim2SF x) = true -> is_nan x = false.
Proof.
  destruct (is_nan x) eqn:E; [| reflexivity].
  rewrite (Prim2SF_nan x E). discriminate.
Qed.

(** Among numbers, [y < x] failing means [x <= y]. *)
Lemma leb_of_not_ltb x y :
  is_nan x = false -> is_nan y = false -> (y <? x) = false -> (x <=? y) = true.
Proof.
  intros Hx Hy.
  apply Prim2SF_not_nan in Hx. apply Prim2SF_not_nan in Hy.
  rewrite FloatAxioms.ltb_spec, FloatAxioms.leb_spec.
  unfold SFltb, SFleb. rewrite (SFcompare_antisym (Prim2SF x) (Prim2SF y)).
  destruct (Prim2SF x), (Prim2SF y); try congruence;
    destruct (SFcompare _ _) as [[] |] eqn:E; simpl; try congruence;
    discriminate E.
Qed.

(** [0 < x] excludes both NaN and [x <= 0]. *)
Lemma positive_passes x :
  (0 <? x) = true -> is_nan x = false /\ (x <=? 0) = false.
Proof.
  rewrite FloatAxioms.ltb_spec, FloatAxioms.leb_spec.
  unfold SFltb, SFleb. rewrite (SFcompare_antisym (Prim2SF 0) (Prim2SF x)).
  intros H. split.
  - destruct (is_nan x) eqn:E; [| reflexivity].
    rewrite (Prim2SF_nan x E) in H.
    change (Prim2SF 0) with (S754_zero false) in H. discriminate.
  - destruct (SFcompare (Prim2SF 0) (Prim2SF x)) as [[] |]; simpl; congruence.
Qed.

Lemma shr_1_nonneg mrs : (0 <= shr_m mrs)%Z -> (0 <= shr_m (shr_1 mrs))%Z.
Proof.
  destruct mrs as [m r s]; simpl.
  destruct m as [| p | p]; [| destruct p | ]; simpl; lia.
Qed.

Lemma iter_pos_nonneg p : forall mrs,
  (0 <= shr_m mrs)%Z -> (0 <= shr_m (iter_pos shr_1 p mrs))%Z.
Proof.
  induction p as [p IH | p IH |]; intros mrs H; simpl.
  - apply IH, IH, shr_1_nonneg, H.
  - apply IH, IH, H.
  - apply shr_1_nonneg, H.
Qed.

Lemma shr_fexp_nonneg m e l :
  (0 <= m)%Z -> (0 <= shr_m (fst (shr_fexp prec emax m e l)))%Z.
Proof.
  intros H. unfold shr_fexp, shr.
  assert (H0 : (0 <= shr_m (shr_record_of_loc m l))%Z)
    by (destruct l as [| []]; exact H).
  destruct (_ - e)%Z; simpl; auto using iter_pos_nonneg.
Qed.

Lemma round_nearest_even_nonneg m l :
  (0 <= m)%Z -> (0 <= round_nearest_even m l)%Z.
Proof.
  intros H. destruct l as [| []]; simpl; try lia.
  destruct (Z.even m); lia.
Qed.

(** Rounding a non-negative mantissa never yields NaN and keeps the sign. *)
Lemma binary_round_aux_signed sx m e l :
  (0 <= m)%Z -> signed sx (binary_round_aux prec emax sx m e l).
Proof.
  intros H. unfold binary_round_aux.
  pose proof (shr_fexp_nonneg m e l H) as H1.
  destruct (shr_fexp prec emax m e l) as [mrs' e']; simpl in H1.
  pose proof (shr_fexp_nonneg _ e' loc_Exact
                (round_nearest_even_nonneg _ (loc_of_shr_record mrs') H1)) as H2.
  destruct (shr_fexp prec emax _ e' loc_Exact) as [mrs'' e'']; simpl in H2.
  destruct (shr_m mrs'') as [| p | p]; simpl; try reflexivity; try lia.
  destruct (_ <=? _)%Z; reflexivity.
Qed.

Lemma signed_nonneg r : signed false r -> nonneg r = true.
Proof. destruct r; simpl; intros H; subst; tauto. Qed.

Lemma SFdiv_core_nonneg m1 e1 m2 e2 :
  (0 <= fst (fst (SFdiv_core_binary prec emax (Z.pos m1) e1 (Z.pos m2) e2)))%Z.
Proof.
  unfold SFdiv_core_binary.
  set (s := (_ - _ - _)%Z).
  set (m' := match s with Z.pos _ => _ | _ => _ end).
  assert (Hm : (0 <= m')%Z).
  { subst m'. destruct s; try lia. apply Z.shiftl_nonneg. lia. }
  pose proof (Z.div_eucl_eq m' (Z.pos m2)) as E.
  pose proof (Z.mod_pos_bound m' (Z.pos m2)) as B.
  unfold Z.modulo in B.
  destruct (Z.div_eucl m' (Z.pos m2)) as [q r]. simpl.
  specialize (E ltac:(lia)). specialize (B ltac:(lia)). nia.
Qed.

(** A non-negative number over a positive finite one is non-negative. *)
Lemma SFdiv_nonneg x m e :
  nonneg x = true -> nonneg (SFdiv prec emax x (S754_finite false m e)) = true.
Proof.
  destruct x as [s | s | | s mx ex]; simpl; try discriminate.
  - reflexivity.
  - destruct s; intros H; try discriminate H; reflexivity.
  - destruct s; simpl; intros H0; [discriminate H0 |].
    pose proof (SFdiv_core_nonneg mx ex m e) as H.
    destruct (SFdiv_core_binary _ _ _ _ _ _) as [[mz ez] lz]. simpl in H.
    apply signed_nonneg, binary_round_aux_signed, H.
Qed.

(** A non-negative number times a positive finite one is non-negative. *)
Lemma SFmul_nonneg x m e :
  nonneg x = true -> nonneg (SFmul prec emax x (S754_finite false m e)) = true.
Proof.
  destruct x as [s | s | | s mx ex]; simpl; try discriminate.
  - reflexivity.
  - destruct s; intros H; try discriminate H; reflexivity.
  - destruct s; simpl; intros H; [discriminate H |].
    apply signed_nonneg, binary_round_aux_signed. lia.
Qed.

(** A budget that is neither negative, nor zero, nor infinite is a
    positive finite double. *)
Lemma positive_finite b :
  (0 <=? b) = true -> (b <? infinity) = true -> (b =? 0) = false ->
  exists m e, Prim2SF b = S754_finite false m e.
Proof.
  rewrite leb_zero_nonneg, FloatAxioms.ltb_spec, FloatAxioms.eqb_spec.
  change (Prim2SF infinity) with (S754_infinity false).
  change (Prim2SF 0) with (S754_zero false).
  destruct (Prim2SF b) as [s | s | | s m e]; simpl; try discriminate.
  - destruct s; discriminate.
  - destruct s; try discriminate. eauto.
Qed.

End FloatFacts.

Import FloatFacts.

(** * The order of doubles *)

Module FloatOrder.

Ltac case_pos_compare a b :=
  let P := fresh "P" in
  pose proof (Pos.compare_spec a b) as P; unfold Pos.compare in P; destruct P.

Lemma SFleb_trans x y z :
  SFleb x y = true -> SFleb y z = true -> SFleb x z = true.
Proof.
  unfold SFleb.
  destruct x as [sx | sx | | sx mx ex], y as [sy | sy | | sy my ey],
    z as [sz | sz | | sz mz ez]; simpl; try discriminate; try reflexivity;
    try (destruct sx; simpl; try discriminate; try reflexivity);
    try (destruct sy; simpl; try discriminate; try reflexivity);
    try (destruct sz; simpl; try discriminate; try reflexivity).
  all: destruct (Z.compare_spec ex ey), (Z.compare_spec ey ez), (Z.compare_spec ex ez);
    try discriminate; try reflexivity; try lia; subst.
  all: case_pos_compare mx my; case_pos_compare my mz; case_pos_compare mx mz;
    simpl; try discriminate; try reflexivity; try lia.
Qed.

Lemma SFleb_refl x : x <> S754_nan -> SFleb x x = true.
Proof.
  unfold SFleb. destruct x as [s | s | | s m e]; simpl; try congruence;
    intros _; try (destruct s; reflexivity).
  rewrite Z.compare_refl.
  case_pos_compare m m; destruct s; simpl; try reflexivity; lia.
Qed.

Lemma SFltb_not_SFleb x y :
  x <> S754_nan -> y <> S754_nan -> SFltb x y = negb (SFleb y x).
Proof.
  intros Hx Hy. unfold SFltb, SFleb. rewrite (SFcompare_antisym x y).
  destruct x, y; try congruence;
    destruct (SFcompare _ _) as [[] |] eqn:E; simpl; try reflexivity;
    discriminate E.
Qed.

Lemma SFeqb_SFleb x y : SFeqb x y = SFleb x y && SFleb y x.
Proof.
  unfold SFeqb, SFleb. rewrite (SFcompare_antisym x y).
  destruct (SFcompare x y) as [[] |]; reflexivity.
Qed.

(** The order of the doubles that are numbers. *)
Lemma leb_refl x : is_nan x = false -> (x <=? x) = true.
Proof.
  intros H. rewrite FloatAxioms.leb_spec. now apply SFleb_refl, Prim2SF_not_nan.
Qed.

Lemma leb_trans x y z :
  (x <=? y) = true -> (y <=? z) = true -> (x <=? z) = true.
Proof. rewrite !FloatAxioms.leb_spec. apply SFleb_trans. Qed.

Lemma ltb_not_leb x y :
  is_nan x = false -> is_nan y = false -> (x <? y) = negb (y <=? x).
Proof.
  intros Hx Hy. rewrite FloatAxioms.ltb_spec, FloatAxioms.leb_spec.
  apply SFltb_not_SFleb; now apply Prim2SF_not_nan.
Qed.

Lemma eqb_leb x y : (x =? y) = (x <=? y) && (y <=? x).
Proof. rewrite FloatAxioms.eqb_spec, !FloatAxioms.leb_spec. apply SFeqb_SFleb. Qed.

Lemma ltb_leb x y : (x <? y) = true -> (x <=? y) = true.
Proof.
  rewrite FloatAxioms.ltb_spec, FloatAxioms.leb_spec. unfold SFltb, SFleb.
  now destruct (SFcompare _ _) as [[] |].
Qed.

Lemma leb_not_nan x y : (x <=? y) = true -> is_nan x = false /\ is_nan y = false.
Proof.
  rewrite FloatAxioms.leb_spec. intros H.
  split; [destruct (is_nan x) eqn:E | destruct (is_nan y) eqn:E]; try reflexivity;
    rewrite (Prim2SF_nan _ E) in H; [| destruct (Prim2SF x)]; discriminate H.
Qed.

(** Doubles that compare equal and are positive are the same double. *)
Lemma eqb_positive_eq x y : (x =? y) = true -> (0 <? y) = true -> x = y.
Proof.
  rewrite FloatAxioms.eqb_spec, FloatAxioms.ltb_spec.
  change (Prim2SF 0) with (S754_zero false).
  intros E P. apply Prim2SF_inj. revert E P. unfold SFeqb, SFltb.
  destruct (Prim2SF x) as [sx | sx | | sx mx ex], (Prim2SF y) as [sy | sy | | sy my ey];
    simpl; try discriminate;
    try (destruct sx, sy; simpl; try discriminate; reflexivity);
    try (destruct sx; discriminate); try (destruct sy; discriminate).
  destruct sx, sy; simpl; try discriminate;
    destruct (Z.compare_spec ex ey); try discriminate; subst;
    case_pos_compare mx my; try discriminate; subst; reflexivity.
Qed.

Lemma Math_max_nan a b :
  is_nan a || is_nan b = true -> is_nan (Math_max a b) = true.
Proof. intros H. unfold Math_max. now rewrite H. Qed.

(** [Math.max] of two numbers is one of them and is below neither. *)
Lemma Math_max_spec a b :
  is_nan a = false -> is_nan b = false ->
  (Math_max a b = a \/ Math_max a b = b)
  /\ (a <=? Math_max a b) = true /\ (b <=? Math_max a b) = true.
Proof.
  intros Ha Hb. unfold Math_max. rewrite Ha, Hb. simpl.
  destruct (a <? b) eqn:L; simpl.
  - split; [now right |]. split; [now apply ltb_leb | now apply leb_refl].
  - destruct (isPositiveZero b && isNegativeZero a) eqn:Z.
    + split; [now right |]. split; [| now apply leb_refl].
      apply andb_prop in Z. destruct Z as [Zb Za].
      unfold isPositiveZero, isNegativeZero, is_zero in *.
      apply andb_prop in Zb, Za. destruct Zb as [Zb _], Za as [Za _].
      rewrite eqb_leb in Za, Zb. apply andb_prop in Za, Zb.
      destruct Za as [Za _], Zb as [_ Zb].
      now apply (leb_trans a 0 b).
    + split; [now left |]. split; [now apply leb_refl |].
      now apply leb_of_not_ltb.
Qed.

Lemma eqb_refl x : is_nan x = false -> (x =? x) = true.
Proof. intros H. now rewrite eqb_leb, leb_refl. Qed.

Lemma eqb_both x y : (x =? y) = true -> (x <=? y) = true /\ (y <=? x) = true.
Proof. rewrite eqb_leb. apply andb_prop. Qed.

(** Doubles that compare equal stand in the same order to any number. *)
Lemma ltb_eqb_compat t m v :
  (t =? m) = true -> is_nan v = false -> (t <? v) = (m <? v).
Proof.
  intros E Hv. destruct (eqb_both _ _ E) as [Ltm Lmt].
  destruct (leb_not_nan _ _ Ltm) as [Ht Hm].
  rewrite !ltb_not_leb by assumption. f_equal.
  destruct (v <=? t) eqn:A, (v <=? m) eqn:B; try reflexivity.
  - now rewrite (leb_trans v t m A Ltm) in B.
  - now rewrite (leb_trans v m t B Lmt) in A.
Qed.

End FloatOrder.

Import FloatOrder.

(** * The rounding of a sum of doubles *)

Module Rounding.
Import Exact.
Local Open Scope Z_scope.

(** The number of binary digits of a mantissa. *)
Lemma digits2_pos_spec p :
  2 ^ (Z.pos (digits2_pos p) - 1) <= Z.pos p < 2 ^ Z.pos (digits2_pos p).
Proof.
  induction p as [p IH | p IH |]; cbn [digits2_pos].
  - rewrite Pos2Z.inj_succ.
    replace (Z.succ (Z.pos (digits2_pos p)) - 1) with (Z.succ (Z.pos (digits2_pos p) - 1)) by lia.
    rewrite !Z.pow_succ_r by lia. rewrite (Pos2Z.inj_xI p).
    assert (2 ^ Z.pos (digits2_pos p) = 2 * 2 ^ (Z.pos (digits2_pos p) - 1)).
    { rewrite <- Z.pow_succ_r by lia. f_equal. lia. }
    lia.
  - rewrite Pos2Z.inj_succ.
    replace (Z.succ (Z.pos (digits2_pos p)) - 1) with (Z.succ (Z.pos (digits2_pos p) - 1)) by lia.
    rewrite !Z.pow_succ_r by lia. rewrite (Pos2Z.inj_xO p).
    assert (2 ^ Z.pos (digits2_pos p) = 2 * 2 ^ (Z.pos (digits2_pos p) - 1)).
    { rewrite <- Z.pow_succ_r by lia. f_equal. lia. }
    lia.
  - cbv. split; congruence.
Qed.

Lemma pow2_bracket_unique n a b :
  2 ^ (a - 1) <= n < 2 ^ a -> 2 ^ (b - 1) <= n < 2 ^ b -> 1 <= a -> 1 <= b -> a = b.
Proof.
  intros Ha Hb A B.
  destruct (Z.lt_trichotomy a b) as [L | [E | L]]; [| exact E |]; exfalso.
  - assert (2 ^ a <= 2 ^ (b - 1)) by (apply Z.pow_le_mono_r; lia). lia.
  - assert (2 ^ b <= 2 ^ (a - 1)) by (apply Z.pow_le_mono_r; lia). lia.
Qed.

Lemma digits2_pos_unique p a :
  2 ^ (a - 1) <= Z.pos p < 2 ^ a -> 1 <= a -> Z.pos (digits2_pos p) = a.
Proof.
  intros H A.
  apply (pow2_bracket_unique (Z.pos p) _ _ (digits2_pos_spec p) H); lia.
Qed.

(** A left shift multiplies by a power of two and adds to the digits. *)
Lemma iter_xO m d : Z.pos (Pos.iter xO m d) = Z.pos m * 2 ^ Z.pos d.
Proof.
  induction d as [| d IH] using Pos.peano_ind.
  - cbn [Pos.iter]. rewrite (Pos2Z.inj_xO m). change (2 ^ 1) with 2. lia.
  - rewrite Pos.iter_succ, (Pos2Z.inj_xO (Pos.iter xO m d)), IH, Pos2Z.inj_succ, Z.pow_succ_r by lia. lia.
Qed.

Lemma digits2_pos_shift m d :
  Z.pos (digits2_pos (Pos.iter xO m d)) = Z.pos (digits2_pos m) + Z.pos d.
Proof.
  apply digits2_pos_unique; [| lia].
  rewrite iter_xO. pose proof (digits2_pos_spec m) as [L U].
  replace (Z.pos (digits2_pos m) + Z.pos d - 1) with ((Z.pos (digits2_pos m) - 1) + Z.pos d) by lia.
  rewrite !Z.pow_add_r by lia.
  assert (0 < 2 ^ Z.pos d) by (apply Z.pow_pos_nonneg; lia).
  split; [apply Z.mul_le_mono_nonneg_r; lia | apply Z.mul_lt_mono_pos_r; lia].
Qed.

(* shr *)
(** One right shift halves the mantissa and remembers the bit it drops. *)
Lemma shr_1_spec m r s :
  0 <= m -> shr_1 (Build_shr_record m r s) = Build_shr_record (m / 2) (Z.odd m) (r || s).
Proof.
  intros H. destruct m as [| p | p]; [reflexivity | | lia].
  destruct p as [p | p |]; cbn [shr_1 Z.odd].
  - rewrite (Pos2Z.inj_xI p). f_equal. apply Z.div_unique with 1; lia.
  - rewrite (Pos2Z.inj_xO p). f_equal. apply Z.div_unique with 0; lia.
  - reflexivity.
Qed.

Lemma iter_pos_nat {A} (f : A -> A) p : forall x,
  iter_pos f p x = Nat.iter (Pos.to_nat p) f x.
Proof.
  induction p as [p IH | p IH |]; intros x; cbn [iter_pos].
  - rewrite !IH, Pos2Nat.inj_xI, Nat.iter_succ_r.
    replace (2 * Pos.to_nat p)%nat with (Pos.to_nat p + Pos.to_nat p)%nat by lia.
    now rewrite Nat.iter_add.
  - rewrite !IH, Pos2Nat.inj_xO.
    replace (2 * Pos.to_nat p)%nat with (Pos.to_nat p + Pos.to_nat p)%nat by lia.
    now rewrite Nat.iter_add.
  - reflexivity.
Qed.

(** [n + 1] right shifts of a mantissa given exactly. *)
Lemma iter_shr m n :
  0 <= m -> shrInv m n (Nat.iter (S n) shr_1 (Build_shr_record m false false)).
Proof.
  intros Hm. induction n as [| n IH].
  - cbn [Nat.iter]. rewrite shr_1_spec by exact Hm. split; [reflexivity |].
    exists 0. cbn [shr_r shr_s]. change (2 ^ Z.of_nat 1) with 2.
    change (2 ^ Z.of_nat 0) with 1. rewrite Zmod_odd.
    split; [lia |]. split; [destruct (Z.odd m); reflexivity | reflexivity].
  - change (Nat.iter (S (S n)) shr_1 ?x) with (shr_1 (Nat.iter (S n) shr_1 x)).
    destruct (Nat.iter (S n) shr_1 _) as [q r s].
    destruct IH as (Eq & t & Ht & Emod & Es). cbn [shr_m shr_r shr_s] in *.
    assert (P : 0 < 2 ^ Z.of_nat (S n)) by (apply Z.pow_pos_nonneg; lia).
    assert (E2 : 2 ^ Z.of_nat (S (S n)) = 2 ^ Z.of_nat (S n) * 2).
    { rewrite (Nat2Z.inj_succ (S n)), Z.pow_succ_r by lia. lia. }
    assert (E1 : 2 ^ Z.of_nat (S n) = 2 * 2 ^ Z.of_nat n).
    { rewrite (Nat2Z.inj_succ n), Z.pow_succ_r by lia. lia. }
    assert (Hq : 0 <= q) by (subst q; apply Z.div_pos; lia).
    rewrite shr_1_spec by exact Hq. split; cbn [shr_m shr_r shr_s].
    + rewrite E2, <- Z.div_div by lia. now rewrite Eq.
    + exists (m mod 2 ^ Z.of_nat (S n)).
      split; [apply Z.mod_pos_bound; exact P |]. split.
      * rewrite E2, Z.rem_mul_r by lia. rewrite <- Eq, Zmod_odd.
        destruct (Z.odd q); lia.
      * rewrite Emod. destruct r; cbn [orb].
        -- symmetry. apply negb_true_iff, Z.eqb_neq.
           assert (0 < 2 ^ Z.of_nat n) by (apply Z.pow_pos_nonneg; lia). lia.
        -- now rewrite Z.add_0_l.
Qed.

(** Rounding to nearest after the shifts moves the mantissa by half a
    unit of the last place kept at most. *)
Lemma round_spec m n rec :
  0 <= m -> shrInv m n rec ->
  let k := Z.of_nat (S n) in
  let m1 := round_nearest_even (shr_m rec) (loc_of_shr_record rec) in
  m / 2 ^ k <= m1 <= m / 2 ^ k + 1 /\ Z.abs (m1 * 2 ^ k - m) * 2 <= 2 ^ k.
Proof.
  intros Hm (Eq & t & Ht & Emod & Es) k m1. subst m1 k.
  destruct rec as [q r s]. cbn [shr_m shr_r shr_s] in *.
  assert (E1 : 2 ^ Z.of_nat (S n) = 2 * 2 ^ Z.of_nat n).
  { rewrite (Nat2Z.inj_succ n), Z.pow_succ_r by lia. lia. }
  assert (P : 0 < 2 ^ Z.of_nat n) by (apply Z.pow_pos_nonneg; lia).
  pose proof (Z.div_mod m (2 ^ Z.of_nat (S n)) ltac:(lia)) as D.
  rewrite <- Eq in *. rewrite Emod in D.
  set (K := 2 ^ Z.of_nat (S n)) in *.
  set (X := K * q) in *.
  assert (EX : q * K = X) by (subst X; ring).
  assert (EX1 : (q + 1) * K = X + K) by (subst X; ring).
  destruct r, s; cbn [loc_of_shr_record round_nearest_even].
  - rewrite EX1. symmetry in Es. apply negb_true_iff, Z.eqb_neq in Es. lia.
  - symmetry in Es. apply negb_false_iff, Z.eqb_eq in Es.
    destruct (Z.even q); rewrite ?EX1, ?EX; lia.
  - rewrite EX. lia.
  - symmetry in Es. apply negb_false_iff, Z.eqb_eq in Es. rewrite EX. lia.
Qed.

Lemma fexp_eq x : fexp prec emax x = Z.max (x - 53) (-1074).
Proof. reflexivity. Qed.

Lemma binary_round_aux_eq sx mx ex lx :
  binary_round_aux prec emax sx mx ex lx =
    finish sx (shr_fexp prec emax
                 (round_nearest_even (shr_m (fst (shr_fexp prec emax mx ex lx)))
                    (loc_of_shr_record (fst (shr_fexp prec emax mx ex lx))))
                 (snd (shr_fexp prec emax mx ex lx)) loc_Exact).
Proof.
  unfold binary_round_aux, finish.
  destruct (shr_fexp prec emax mx ex lx) as [mrs' e']. reflexivity.
Qed.

(** The second normalisation of [binary_round_aux]: a mantissa of 53
    digits stays, the carry [2^53] loses one digit and nothing else. *)
Lemma round_aux_tail p1 e1 :
  2 ^ 52 <= Z.pos p1 <= 2 ^ 53 -> -1074 <= e1 -> e1 <= 970 ->
  exists m2 e2,
    finish false (shr_fexp prec emax (Z.pos p1) e1 loc_Exact) = S754_finite false m2 e2
    /\ -1074 <= e2
    /\ Z.pos m2 * 2 ^ (e2 + 1074) = Z.pos p1 * 2 ^ (e1 + 1074).
Proof.
  intros Hp He1 He1'.
  unfold shr_fexp. cbn [Zdigits2 shr_record_of_loc]. rewrite fexp_eq.
  destruct (Z.eq_dec (Z.pos p1) (2 ^ 53)) as [E | N].
  - assert (P : p1 = 9007199254740992%positive) by (apply Pos2Z.inj; exact E).
    subst p1. change (Z.pos (digits2_pos 9007199254740992)) with 54.
    replace (Z.max (54 + e1 - 53) (-1074) - e1) with 1 by lia.
    cbn [shr iter_pos shr_1 finish shr_m].
    replace (e1 + 1 <=? emax - prec) with true
      by (symmetry; apply Z.leb_le; unfold emax, prec; lia).
    eexists _, _. split; [reflexivity |]. split; [lia |].
    replace (e1 + 1 + 1074) with (Z.succ (e1 + 1074)) by lia.
    rewrite Z.pow_succ_r by lia. lia.
  - rewrite (digits2_pos_unique p1 53) by lia.
    replace (Z.max (53 + e1 - 53) (-1074) - e1) with 0 by lia.
    cbn [shr finish shr_m].
    replace (e1 <=? emax - prec) with true
      by (symmetry; apply Z.leb_le; unfold emax, prec; lia).
    eexists _, _. split; [reflexivity |]. split; [lia | reflexivity].
Qed.

(** Rounding a positive value that is not too large gives a finite
    double within a relative error of [2^-53]. *)
Lemma round_aux_pos (m : positive) (e : Z) :
  -1074 <= e -> e <= fexp prec emax (Z.pos (digits2_pos m) + e) ->
  Z.pos (digits2_pos m) + e <= 1023 ->
  exists m2 e2,
    binary_round_aux prec emax false (Z.pos m) e loc_Exact = S754_finite false m2 e2
    /\ -1074 <= e2
    /\ Z.abs (Z.pos m2 * 2 ^ (e2 + 1074) - Z.pos m * 2 ^ (e + 1074)) * 2 ^ 53
       <= Z.pos m * 2 ^ (e + 1074).
Proof.
  intros He Hf Hd. rewrite fexp_eq in Hf.
  pose proof (digits2_pos_spec m) as [DL DU].
  set (d := Z.pos (digits2_pos m)) in *.
  assert (W : 0 < 2 ^ (e + 1074)) by (apply Z.pow_pos_nonneg; lia).
  rewrite binary_round_aux_eq.
  unfold shr_fexp at 2 3 4. cbn [Zdigits2 shr_record_of_loc]. fold d.
  rewrite fexp_eq.
  destruct (Z.max (d + e - 53) (-1074) - e) as [| kp | kp] eqn:K; [| | lia].
  - cbn [shr fst snd shr_m loc_of_shr_record round_nearest_even].
    unfold shr_fexp. cbn [Zdigits2 shr_record_of_loc]. fold d. rewrite fexp_eq, K.
    cbn [shr finish shr_m].
    replace (e <=? emax - prec) with true
      by (symmetry; apply Z.leb_le; unfold emax, prec; clear - K Hd He; lia).
    exists m, e. split; [reflexivity |]. split; [exact He |].
    rewrite Z.sub_diag. change (Z.abs 0) with 0. rewrite Z.mul_0_l.
    apply Z.mul_nonneg_nonneg; [apply Pos2Z.is_nonneg | apply Z.lt_le_incl, W].
  - cbn [shr fst snd]. rewrite iter_pos_nat.
    destruct (Pos2Nat.is_succ kp) as [n En]. rewrite En.
    assert (Ek : Z.of_nat (S n) = Z.pos kp) by (rewrite <- En; apply positive_nat_Z).
    pose proof (iter_shr (Z.pos m) n ltac:(lia)) as I.
    pose proof (round_spec (Z.pos m) n _ ltac:(lia) I) as R.
    cbv zeta in R. rewrite Ek in R.
    set (m1 := round_nearest_even _ _) in *.
    destruct R as [[R1 R2] R3].
    assert (Kd : Z.pos kp = d - 53) by lia.
    assert (P2 : 2 ^ (d - 1) = 2 ^ 52 * 2 ^ Z.pos kp).
    { rewrite <- Z.pow_add_r by lia. f_equal. lia. }
    assert (P3 : 2 ^ d = 2 ^ 53 * 2 ^ Z.pos kp).
    { rewrite <- Z.pow_add_r by lia. f_equal. lia. }
    assert (PK : 0 < 2 ^ Z.pos kp) by (apply Z.pow_pos_nonneg; lia).
    assert (Q1 : 2 ^ 52 <= Z.pos m / 2 ^ Z.pos kp).
    { apply Z.div_le_lower_bound; lia. }
    assert (Q2 : Z.pos m / 2 ^ Z.pos kp < 2 ^ 53).
    { apply Z.div_lt_upper_bound; lia. }
    destruct m1 as [| p1 | p1]; [lia | | lia].
    destruct (round_aux_tail p1 (e + Z.pos kp) ltac:(lia) ltac:(lia) ltac:(lia))
      as (m2 & e2 & F & He2 & V).
    exists m2, e2. split; [exact F |]. split; [exact He2 |].
    rewrite V.
    replace (e + Z.pos kp + 1074) with (Z.pos kp + (e + 1074)) by lia.
    rewrite Z.pow_add_r by lia.
    replace (Z.pos p1 * (2 ^ Z.pos kp * 2 ^ (e + 1074)) - Z.pos m * 2 ^ (e + 1074))
      with ((Z.pos p1 * 2 ^ Z.pos kp - Z.pos m) * 2 ^ (e + 1074)) by ring.
    rewrite Z.abs_mul, (Z.abs_eq (2 ^ (e + 1074))) by lia.
    set (A := Z.abs _) in *.
    assert (HA : A * 2 ^ 53 <= Z.pos m).
    { change (2 ^ 53) with (2 * 2 ^ 52). lia. }
    replace (A * 2 ^ (e + 1074) * 2 ^ 53) with (A * 2 ^ 53 * 2 ^ (e + 1074)) by ring.
    apply Z.mul_le_mono_nonneg_r; lia.
Qed.

(** Aligning a mantissa to a smaller exponent keeps the value. *)
Lemma shl_align_spec mx ex ez :
  ez <= ex -> Z.pos (fst (shl_align mx ex ez)) = Z.pos mx * 2 ^ (ex - ez).
Proof.
  intros H. unfold shl_align.
  destruct (ez - ex) as [| d | d] eqn:E; [| lia |]; cbn [fst].
  - replace (ex - ez) with 0 by lia. change (2 ^ 0) with 1. lia.
  - rewrite iter_xO. do 2 f_equal. lia.
Qed.

Lemma shl_align_fexp_spec p ez :
  -1074 <= ez ->
  exists mz ez',
    shl_align p ez (fexp prec emax (Z.pos (digits2_pos p) + ez)) = (mz, ez')
    /\ -1074 <= ez'
    /\ ez' <= fexp prec emax (Z.pos (digits2_pos mz) + ez')
    /\ Z.pos (digits2_pos mz) + ez' = Z.pos (digits2_pos p) + ez
    /\ Z.pos mz * 2 ^ (ez' + 1074) = Z.pos p * 2 ^ (ez + 1074).
Proof.
  intros H. unfold shl_align. rewrite !fexp_eq.
  set (f := Z.max (Z.pos (digits2_pos p) + ez - 53) (-1074)).
  destruct (f - ez) as [| d | d] eqn:E.
  - exists p, ez. rewrite fexp_eq. fold f. repeat split; lia.
  - exists p, ez. rewrite fexp_eq. fold f. repeat split; lia.
  - exists (Pos.iter xO p d), f. rewrite fexp_eq, digits2_pos_shift.
    split; [reflexivity |]. split; [subst f; lia |]. split; [subst f; lia |].
    split; [lia |].
    rewrite iter_xO, <- Z.mul_assoc, <- Z.pow_add_r by (subst f; lia).
    do 2 f_equal. lia.
Qed.

Lemma no_overflow p ez :
  Z.pos p * 2 ^ (ez + 1074) < 2 ^ 2097 -> -1074 <= ez ->
  Z.pos (digits2_pos p) + ez <= 1023.
Proof.
  intros H He. pose proof (digits2_pos_spec p) as [L _].
  set (d := Z.pos (digits2_pos p)) in *.
  assert (P : 2 ^ (d - 1 + (ez + 1074)) < 2 ^ 2097).
  { rewrite Z.pow_add_r by lia.
    apply Z.le_lt_trans with (2 := H).
    apply Z.mul_le_mono_nonneg_r; [apply Z.pow_nonneg; lia | exact L]. }
  apply Z.pow_lt_mono_r_iff in P; lia.
Qed.

(** IEEE addition of two doubles [>= 0]: finite unless the sum is
    huge, and within a relative error of [2^-53] of the exact sum. *)
Lemma SFadd_error x y :
  nonnegFiniteSF x -> nonnegFiniteSF y -> scaledSF x + scaledSF y < 2 ^ 2097 ->
  nonnegFiniteSF (SFadd prec emax x y)
  /\ Z.abs (scaledSF (SFadd prec emax x y) - (scaledSF x + scaledSF y)) * 2 ^ 53
     <= scaledSF x + scaledSF y.
Proof.
  intros Gx Gy B.
  destruct x as [sx | sx | | sx mx ex]; try contradiction;
    destruct y as [sy | sy | | sy my ey]; try contradiction.
  - split; [destruct sx, sy; exact I |]. now destruct sx, sy.
  - destruct sy; [contradiction |]. cbn [SFadd]. split; [exact Gy |].
    cbn [scaledSF]. rewrite Z.add_0_l, Z.sub_diag. cbn [Z.abs].
    rewrite Z.mul_0_l, Z.mul_1_l.
    apply Z.mul_nonneg_nonneg; [apply Pos2Z.is_nonneg | apply Z.pow_nonneg; lia].
  - destruct sx; [contradiction |]. cbn [SFadd]. split; [exact Gx |].
    cbn [scaledSF]. rewrite Z.add_0_r, Z.sub_diag. cbn [Z.abs].
    rewrite Z.mul_0_l, Z.mul_1_l.
    apply Z.mul_nonneg_nonneg; [apply Pos2Z.is_nonneg | apply Z.pow_nonneg; lia].
  - destruct sx; [contradiction |]. destruct sy; [contradiction |].
    cbn [nonnegFiniteSF] in Gx, Gy. cbn [scaledSF] in B |- *.
    rewrite !Z.mul_1_l in *.
    cbn [SFadd]. cbv zeta. cbn [cond_Zopp].
    set (ez := Z.min ex ey).
    pose proof (shl_align_spec mx ex ez ltac:(subst ez; lia)) as Ex.
    pose proof (shl_align_spec my ey ez ltac:(subst ez; lia)) as Ey.
    set (mx' := fst (shl_align mx ex ez)) in *.
    set (my' := fst (shl_align my ey ez)) in *.
    change (Z.pos mx' + Z.pos my') with (Z.pos (mx' + my')).
    cbn [binary_normalize]. unfold binary_round.
    assert (Hez : -1074 <= ez) by (subst ez; lia).
    assert (V : Z.pos (mx' + my') * 2 ^ (ez + 1074)
                = Z.pos mx * 2 ^ (ex + 1074) + Z.pos my * 2 ^ (ey + 1074)).
    { rewrite Pos2Z.inj_add, Z.mul_add_distr_r, Ex, Ey.
      rewrite <- !Z.mul_assoc, <- !Z.pow_add_r by lia.
      f_equal; do 2 f_equal; lia. }
    destruct (shl_align_fexp_spec (mx' + my') ez Hez)
      as (mz & ez' & S & Hez' & Hf & Hd & Vz).
    rewrite S.
    assert (O : Z.pos (digits2_pos mz) + ez' <= 1023).
    { rewrite Hd. apply no_overflow; [rewrite V; exact B | exact Hez]. }
    destruct (round_aux_pos mz ez' Hez' Hf O) as (m2 & e2 & R & He2 & Err).
    rewrite R. cbn [nonnegFiniteSF scaledSF]. split; [exact He2 |].
    rewrite Z.mul_1_l, <- V, <- Vz. exact Err.
Qed.

Lemma add_error x y :
  nonnegFinite x -> nonnegFinite y -> scaled x + scaled y < 2 ^ 2097 ->
  nonnegFinite (x + y)%float
  /\ Z.abs (scaled (x + y)%float - (scaled x + scaled y)) * 2 ^ 53
     <= scaled x + scaled y.
Proof.
  unfold nonnegFinite, scaled. rewrite add_spec. apply SFadd_error.
Qed.

Lemma good_nonneg x : nonnegFinite x -> 0 <= scaled x.
Proof.
  unfold nonnegFinite, scaled. destruct (Prim2SF x) as [| | | s m e]; cbn; try lia.
  destruct s; [contradiction |]. intros H.
  assert (0 < 2 ^ (e + 1074)) by (apply Z.pow_pos_nonneg; lia).
  destruct (2 ^ (e + 1074)); lia.
Qed.

Lemma total_nonneg l : Forall nonnegFinite l -> 0 <= total l.
Proof.
  induction 1 as [| a l Ha _ IH]; cbn [total fold_right]; [lia |].
  fold (total l). pose proof (good_nonneg a Ha). lia.
Qed.

Lemma total_app l1 l2 : total (l1 ++ l2) = total l1 + total l2.
Proof.
  induction l1 as [| a l1 IH]; cbn [total fold_right app]; [reflexivity |].
  fold (total (l1 ++ l2)) (total l1). lia.
Qed.

Lemma total_perm l1 l2 : Permutation l1 l2 -> total l1 = total l2.
Proof.
  induction 1; unfold total in *; cbn [fold_right] in *; lia.
Qed.

(** A left-to-right sum of doubles [>= 0] whose exact sum is at most [B]:
    after [i] additions the error is at most [i * 2B * 2^-53]. *)
Lemma fsum_error l : forall acc S0 i B,
  Forall nonnegFinite l -> nonnegFinite acc -> 0 <= S0 -> 0 <= i ->
  Z.abs (scaled acc - S0) * 9007199254740992 <= i * (2 * B) ->
  S0 + total l <= B ->
  2 * (i + Z.of_nat (List.length l)) <= 9007199254740992 ->
  2 * B < 2 ^ 2097 ->
  nonnegFinite (fsum l acc)
  /\ Z.abs (scaled (fsum l acc) - (S0 + total l)) * 9007199254740992
     <= (i + Z.of_nat (List.length l)) * (2 * B).
Proof.
  induction l as [| a l IH]; intros acc S0 i B Hl Hacc HS0 Hi Herr HB Hn HO.
  - cbn [fsum fold_left total fold_right List.length Z.of_nat] in *.
    split; [exact Hacc |]. now rewrite !Z.add_0_r.
  - inversion Hl as [| ? ? Ha Hl']; subst.
    cbn [fsum fold_left]. fold (fsum l (acc + a)%float).
    cbn [total fold_right] in HB |- *. fold (total l) in HB |- *.
    pose proof (good_nonneg a Ha) as Na.
    pose proof (total_nonneg l Hl') as Nl.
    cbn [List.length] in Hn |- *.
    rewrite (Nat2Z.inj_succ (List.length l)) in Hn |- *.
    assert (HiB : i * (2 * B) <= 4503599627370496 * (2 * B)).
    { apply Z.mul_le_mono_nonneg_r; lia. }
    assert (E1 : Z.abs (scaled acc - S0) <= B) by lia.
    destruct (add_error acc a Hacc Ha) as [G Err].
    { apply Z.le_lt_trans with (2 := HO). lia. }
    change (2 ^ 53) with 9007199254740992 in Err.
    destruct (IH (acc + a)%float (S0 + scaled a) (i + 1) B Hl' G) as [G' Err'];
      try lia.
    split; [exact G' |].
    replace (S0 + (scaled a + total l)) with (S0 + scaled a + total l) by ring.
    replace (i + Z.succ (Z.of_nat (List.length l))) with (i + 1 + Z.of_nat (List.length l)) by lia.
    exact Err'.
Qed.

Lemma fsum_error0 l B :
  Forall nonnegFinite l -> total l <= B ->
  2 * Z.of_nat (List.length l) <= 9007199254740992 -> 2 * B < 2 ^ 2097 ->
  nonnegFinite (fsum l 0%float)
  /\ Z.abs (scaled (fsum l 0%float) - total l) * 9007199254740992
     <= Z.of_nat (List.length l) * (2 * B).
Proof.
  intros Hl HB Hn HO.
  pose proof (total_nonneg l Hl).
  assert (Z0 : Z.abs (scaled 0%float - 0) * 9007199254740992 <= 0 * (2 * B))
    by (vm_compute; discriminate).
  apply (fsum_error l 0%float 0 0 B Hl I (Z.le_refl 0) (Z.le_refl 0) Z0); lia.
Qed.

(** The same for several sums at once: the errors add up over the
    groups. *)
Lemma groups_error (groups : list (list float)) B :
  Forall (fun g => Forall nonnegFinite g /\ total g <= B
                   /\ 2 * Z.of_nat (List.length g) <= 9007199254740992) groups ->
  2 * B < 2 ^ 2097 ->
  Forall nonnegFinite (map (fun g => fsum g 0%float) groups)
  /\ Z.abs (total (map (fun g => fsum g 0%float) groups) - total (List.concat groups))
     * 9007199254740992
     <= Z.of_nat (List.length (List.concat groups)) * (2 * B).
Proof.
  intros H HO. induction H as [| g groups (Hg & HB & Hn) _ [IG IE]];
    cbn [map List.concat total fold_right List.length].
  - split; [constructor | cbn; lia].
  - fold (total (map (fun g => fsum g 0%float) groups)).
    rewrite total_app, length_app, Nat2Z.inj_add.
    destruct (fsum_error0 g B Hg HB Hn HO) as [G E].
    split; [constructor; assumption |].
    replace ((Z.of_nat (List.length g) + Z.of_nat (List.length (List.concat groups))) * (2 * B))
      with (Z.of_nat (List.length g) * (2 * B)
            + Z.of_nat (List.length (List.concat groups)) * (2 * B)) by ring.
    lia.
Qed.

End Rounding.

Import Exact Rounding.

(** * Exact values *)

Lemma infinity_not_finite x s : Prim2SF x = S754_infinity s -> is_finite x = false.
Proof.
  intros E. unfold is_finite, is_infinity.
  rewrite FloatAxioms.eqb_spec, FloatAxioms.abs_spec, E.
  change (Prim2SF infinity) with (S754_infinity false). cbn.
  now rewrite orb_true_r.
Qed.

(** The doubles [>= 0] other than [Infinity] are the zeros and the
    positive finite doubles. *)
Lemma finite_nonneg x :
  (0 <=? x) = true -> is_finite x = true -> nonnegFinite x.
Proof.
  rewrite leb_zero_nonneg. intros N F.
  pose proof (FloatAxioms.Prim2SF_valid x) as V.
  unfold nonnegFinite.
  destruct (Prim2SF x) as [s | s | | s m e] eqn:E; cbn in N |- *.
  - exact I.
  - rewrite (infinity_not_finite x s E) in F. discriminate.
  - discriminate.
  - destruct s; [discriminate |].
    cbn in V. apply andb_prop in V. destruct V as [C _].
    unfold canonical_mantissa in C. apply Z.eqb_eq in C.
    rewrite fexp_eq in C. lia.
Qed.

Lemma nonnegFinite_is_finite x : nonnegFinite x -> is_finite x = true.
Proof.
  unfold nonnegFinite, is_finite, is_infinity. intros G.
  assert (N : is_nan x = false).
  { destruct (is_nan x) eqn:E; [| reflexivity].
    rewrite (Prim2SF_nan x E) in G. destruct G. }
  rewrite N, FloatAxioms.eqb_spec, FloatAxioms.abs_spec.
  change (Prim2SF infinity) with (S754_infinity false).
  destruct (Prim2SF x) as [s | s | | s m e]; try destruct G; reflexivity.
Qed.

Lemma quantum_eq : Z.pos quantum = (2 ^ 1074)%Z.
Proof. unfold quantum. now rewrite Pos2Z.inj_pow. Qed.

(** The exact value is the count of units over [2^1074]. *)
Lemma exact_scaled x : nonnegFinite x -> (exact x == scaled x # quantum)%Q.
Proof.
  unfold nonnegFinite, exact, scaled.
  destruct (Prim2SF x) as [s | s | | s m e]; cbn [nonnegFiniteSF scaledSF];
    try contradiction.
  - intros _. reflexivity.
  - destruct s; [contradiction |]. intros He.
    unfold Qeq. rewrite Z.mul_1_l.
    destruct e as [| k | k]; cbn [Qnum Qden].
    + rewrite quantum_eq. cbn [Z.add]. lia.
    + rewrite quantum_eq, Pos2Z.inj_mul, Pos2Z.inj_pow, Z.pow_add_r by lia. lia.
    + rewrite quantum_eq, Pos2Z.inj_pow, <- Z.mul_assoc, <- Z.pow_add_r by lia.
      do 2 f_equal. lia.
Qed.

Lemma amountsFinite_spec l :
  amountsFinite l = true -> Forall nonnegFinite (map amount l).
Proof.
  unfold amountsFinite. rewrite forallb_forall, Forall_forall.
  intros H x Hx. apply in_map_iff in Hx. destruct Hx as (item & <- & Hi).
  specialize (H item Hi). apply andb_prop in H. destruct H as [N F].
  now apply finite_nonneg.
Qed.

Lemma sumExact_total l :
  Forall nonnegFinite (map amount l) ->
  (sumExact l == total (map amount l) # quantum)%Q.
Proof.
  induction l as [| item l IH]; cbn [sumExact total map fold_right]; intros H.
  - reflexivity.
  - inversion H as [| ? ? Hi Hl]; subst.
    fold (sumExact l). fold (total (map amount l)).
    rewrite (IH Hl), (exact_scaled _ Hi).
    unfold Qeq, Qplus. cbn [Qnum Qden]. rewrite Pos2Z.inj_mul. ring.
Qed.

Lemma totalSpent_fsum l : totalSpent l = fsum (map amount l) 0.
Proof.
  unfold totalSpent, fsum. generalize 0.
  induction l as [| item l IH]; intros acc; cbn [fold_left map]; [reflexivity |].
  apply IH.
Qed.

Lemma sumOfValues_fsum totals : sumOfValues totals = fsum (map snd totals) 0.
Proof.
  unfold sumOfValues, fsum. generalize 0.
  induction totals as [| kv l IH]; intros acc; cbn [fold_left map]; [reflexivity |].
  apply IH.
Qed.

(** A totals object with distinct keys is given by its value at each key. *)
Lemma values_by_key (f : ExpenseCategory -> number) (totals : Totals) :
  NoDup (map fst totals) ->
  (forall c, In c (map fst totals) -> get c totals = Some (f c)) ->
  map snd totals = map f (map fst totals).
Proof.
  induction totals as [| [k v] rest IH]; cbn [map fst snd]; intros N G;
    [reflexivity |].
  inversion N as [| ? ? Hk Nrest]; subst.
  f_equal.
  - specialize (G k (or_introl eq_refl)). cbn [get] in G.
    unfold category_eqb in G. rewrite String.eqb_refl in G. congruence.
  - apply IH; [exact Nrest |]. intros c Hc.
    specialize (G c (or_intror Hc)). cbn [get] in G.
    unfold category_eqb in G.
    destruct (String.eqb_spec k c) as [-> | _]; [contradiction | exact G].
Qed.

Lemma total_filter (p : Expense -> bool) l :
  Forall nonnegFinite (map amount l) ->
  Forall nonnegFinite (map amount (filter p l))
  /\ (total (map amount (filter p l)) <= total (map amount l))%Z
  /\ (List.length (filter p l) <= List.length l)%nat.
Proof.
  induction l as [| item l IH]; cbn [filter map]; intros H.
  - repeat split; [constructor | lia | lia].
  - inversion H as [| ? ? Hi Hl]; subst.
    destruct (IH Hl) as (F & T & L).
    pose proof (good_nonneg _ Hi).
    destruct (p item); cbn [map total fold_right List.length];
      fold (total (map amount l)); fold (total (map amount (filter p l))).
    + repeat split; [constructor; assumption | lia | lia].
    + repeat split; [assumption | lia | lia].
Qed.

(** The sum of the totals of the categories against the total of all
    records: two roundings of one exact sum. *)
Lemma sums_agree (filtered : list Expense) (values : list number) (B : Z) :
  values = map (fun c => totalSpent (ofCategory c filtered)) CATEGORY_PRESETS ->
  Permutation (flat_map (fun c => ofCategory c filtered) CATEGORY_PRESETS) filtered ->
  amountsFinite filtered = true ->
  (1 <= B)%Z ->
  (sumExact filtered <= inject_Z B)%Q ->
  (100 * (4 * Z.of_nat (List.length filtered) + 36) * B <= 2 ^ 53)%Z ->
  is_finite (totalSpent filtered) = true
  /\ is_finite (fsum values 0) = true
  /\ (Qabs (exact (fsum values 0) - exact (totalSpent filtered)) <= 1 # 100)%Q.
Proof.
  intros Ev P F HB HS Hn.
  pose proof (amountsFinite_spec filtered F) as G.
  set (n := Z.of_nat (List.length filtered)) in *.
  set (Bs := (B * 2 ^ 1074)%Z).
  assert (U : (0 < 2 ^ 1074)%Z) by (apply Z.pow_pos_nonneg; lia).
  (* the bound, in units *)
  assert (HT : (total (map amount filtered) <= Bs)%Z).
  { rewrite (sumExact_total _ G) in HS. unfold Qle in HS. cbn [Qnum Qden inject_Z] in HS.
    rewrite quantum_eq in HS. subst Bs. lia. }
  assert (Hn0 : (0 <= n)%Z) by (subst n; lia).
  assert (H36 : (3600 * B <= 100 * (4 * n + 36) * B)%Z)
    by (apply Z.mul_le_mono_nonneg_r; lia).
  assert (H400 : (400 * n <= 100 * (4 * n + 36) * B)%Z).
  { apply Z.le_trans with (100 * (4 * n + 36) * 1)%Z; [lia |].
    apply Z.mul_le_mono_nonneg_l; lia. }
  change (2 ^ 53)%Z with 9007199254740992%Z in Hn.
  assert (HO : (2 * (2 * Bs) < 2 ^ 2097)%Z).
  { apply Z.le_lt_trans with (2 ^ 53 * 2 ^ 1074)%Z.
    - subst Bs. change (2 ^ 53)%Z with 9007199254740992%Z.
      replace (2 * (2 * (B * 2 ^ 1074)))%Z with (4 * B * 2 ^ 1074)%Z by ring.
      apply Z.mul_le_mono_nonneg_r; lia.
    - rewrite <- Z.pow_add_r by lia. apply Z.pow_lt_mono_r; lia. }
  assert (HBs : (0 <= Bs)%Z) by (subst Bs; lia).
  (* totalSpent *)
  destruct (fsum_error0 (map amount filtered) Bs G HT) as [GT ET];
    [rewrite length_map; fold n; lia | lia |].
  rewrite length_map in ET. fold n in ET. rewrite <- totalSpent_fsum in GT, ET.
  (* the category values *)
  set (groups := map (fun c => map amount (ofCategory c filtered)) CATEGORY_PRESETS).
  assert (Ec : List.concat groups
               = map amount (flat_map (fun c => ofCategory c filtered) CATEGORY_PRESETS)).
  { subst groups. now rewrite flat_map_concat_map, concat_map, map_map. }
  assert (Ev' : values = map (fun g => fsum g 0) groups).
  { subst groups. rewrite Ev, map_map. apply map_ext. intros c.
    apply totalSpent_fsum. }
  destruct (groups_error groups Bs) as [GV EV]; [| lia |].
  { subst groups. apply Forall_forall. intros g Hg.
    apply in_map_iff in Hg. destruct Hg as (c & <- & _).
    destruct (total_filter (fun item => category_eqb (category item) c) filtered G)
      as (Fg & Tg & Lg).
    fold (ofCategory c filtered) in Fg, Tg, Lg.
    split; [exact Fg |]. split; [lia |].
    rewrite length_map. subst n. lia. }
  pose proof (total_perm _ _ (Permutation_map amount P)) as TP.
  pose proof (Permutation_length (Permutation_map amount P)) as LP.
  unfold number in *.
  rewrite <- Ev', Ec, TP, LP, length_map in EV.
  fold n in EV. rewrite <- Ev' in GV.
  (* their sum *)
  assert (HnB : (n * (2 * Bs) <= 4503599627370496 * (2 * Bs))%Z)
    by (apply Z.mul_le_mono_nonneg_r; lia).
  destruct (fsum_error0 values (2 * Bs) GV) as [GS ES]; [lia | | lia |].
  { rewrite Ev, length_map. cbn. lia. }
  replace (Z.of_nat (List.length values)) with 9%Z in ES
    by (rewrite Ev, length_map; reflexivity).
  split; [now apply nonnegFinite_is_finite |].
  split; [now apply nonnegFinite_is_finite |].
  rewrite (exact_scaled _ GS), (exact_scaled _ GT).
  set (s := scaled (fsum values 0)) in *.
  set (t := scaled (totalSpent filtered)) in *.
  assert (D : (Z.abs (s - t) * 9007199254740992 <= (4 * n + 36) * Bs)%Z).
  { replace ((4 * n + 36) * Bs)%Z with (9 * (2 * (2 * Bs)) + n * (2 * Bs) + n * (2 * Bs))%Z by ring.
    lia. }
  assert (D' : (100 * Z.abs (s - t) <= 2 ^ 1074)%Z).
  { assert (X : (100 * Z.abs (s - t) * 9007199254740992
                 <= 2 ^ 1074 * 9007199254740992)%Z).
    { apply Z.le_trans with (100 * ((4 * n + 36) * Bs))%Z; [lia |].
      subst Bs.
      replace (100 * ((4 * n + 36) * (B * 2 ^ 1074)))%Z
        with (2 ^ 1074 * (100 * (4 * n + 36) * B))%Z by ring.
      apply Z.mul_le_mono_nonneg_l; lia. }
    apply Z.mul_le_mono_pos_r in X; lia. }
  unfold Qminus, Qplus, Qopp, Qabs, Qle. cbn [Qnum Qden].
  rewrite Pos2Z.inj_mul, quantum_eq.
  replace (s * 2 ^ 1074 + - t * 2 ^ 1074)%Z with ((s - t) * 2 ^ 1074)%Z by ring.
  rewrite Z.abs_mul, (Z.abs_eq (2 ^ 1074)) by lia.
  replace (Z.abs (s - t) * 2 ^ 1074 * 100)%Z
    with (100 * Z.abs (s - t) * 2 ^ 1074)%Z by ring.
  rewrite Z.mul_1_l. apply Z.mul_le_mono_nonneg_r; lia.
Qed.

Lemma positive_finite_or_infinity x :
  (0 <? x) = true ->
  Prim2SF x = S754_infinity false \/ exists m e, Prim2SF x = S754_finite false m e.
Proof.
  rewrite FloatAxioms.ltb_spec. change (Prim2SF 0) with (S754_zero false).
  destruct (Prim2SF x) as [s | s | | s m e]; try destruct s; cbn; try discriminate;
    intros _; [now left | right; now exists m, e].
Qed.

Lemma abs_positive x : (0 <? x) = true -> abs x = x.
Proof.
  intros H. apply FloatAxioms.Prim2SF_inj. rewrite FloatAxioms.abs_spec.
  destruct (positive_finite_or_infinity x H) as [E | (m & e & E)]; now rewrite E.
Qed.

(** The integer [toFixed(2)] prints: the one nearest to [100 x], the
    larger of the two on a tie. *)
Lemma nearest_hundredth m e :
  let n := if (0 <=? e)%Z then (Z.pos m * 2 ^ e * 100)%Z
           else ((Z.pos m * 200 + 2 ^ (- e)) / 2 ^ (1 - e))%Z in
  let v := match e with
           | Z0 => Z.pos m # 1
           | Z.pos k => Z.pos (m * 2 ^ k) # 1
           | Z.neg k => Z.pos m # 2 ^ k
           end%Q in
  (100 * v - (1 # 2) < inject_Z n)%Q /\ (inject_Z n <= 100 * v + (1 # 2))%Q.
Proof.
  destruct e as [| k | k]; cbv zeta.
  - cbn [Z.leb Z.compare]. change (2 ^ 0)%Z with 1%Z.
    unfold Qlt, Qle, Qminus, Qplus, Qmult, Qopp, inject_Z. cbn [Qnum Qden]. lia.
  - replace (0 <=? Z.pos k)%Z with true by reflexivity.
    unfold Qlt, Qle, Qminus, Qplus, Qmult, Qopp, inject_Z. cbn [Qnum Qden].
    rewrite Pos2Z.inj_mul, Pos2Z.inj_pow. lia.
  - replace (0 <=? Z.neg k)%Z with false by reflexivity.
    change (- Z.neg k)%Z with (Z.pos k).
    replace (1 - Z.neg k)%Z with (Z.succ (Z.pos k)) by lia.
    rewrite Z.pow_succ_r by lia.
    assert (P : (0 < 2 ^ Z.pos k)%Z) by (apply Z.pow_pos_nonneg; lia).
    set (p := (2 ^ Z.pos k)%Z) in *.
    pose proof (Z.mul_div_le (Z.pos m * 200 + p) (2 * p) ltac:(lia)) as L.
    pose proof (Z.mul_succ_div_gt (Z.pos m * 200 + p) (2 * p) ltac:(lia)) as U.
    set (n := ((Z.pos m * 200 + p) / (2 * p))%Z) in *.
    unfold Qlt, Qle, Qminus, Qplus, Qmult, Qopp, inject_Z. cbn [Qnum Qden].
    rewrite !Pos2Z.inj_mul, Pos2Z.inj_pow. fold p. lia.
Qed.

(** [Number(x.toFixed(2))] for a positive [x]. *)
Lemma toFixed2_rounds x :
  (0 <? x) = true ->
  ((1e21 <=? x) = true -> toFixed2 x = x)
  /\ ((x <? 1e21) = true ->
      exists n : Z,
        (100 * exact x - (1 # 2) < inject_Z n)%Q
        /\ (inject_Z n <= 100 * exact x + (1 # 2))%Q
        /\ toFixed2 x = match n with
                        | Z.pos p => hundredths false p
                        | _ => 0
                        end).
Proof.
  intros H. pose proof (positive_passes x H) as [Hn _].
  assert (N21 : is_nan 1e21 = false) by reflexivity.
  unfold toFixed2, exact. rewrite (abs_positive x H).
  destruct (positive_finite_or_infinity x H) as [E | (m & e & E)]; rewrite E.
  - split; [reflexivity |]. intros L.
    rewrite FloatAxioms.ltb_spec, E in L. discriminate L.
  - destruct (1e21 <=? x) eqn:C.
    + split; [reflexivity |]. intros L.
      rewrite (ltb_not_leb x 1e21 Hn N21), C in L. discriminate L.
    + split; [discriminate |]. intros _.
      destruct (nearest_hundredth m e) as [L U]. cbv zeta in L, U.
      eexists. split; [exact L |]. split; [exact U |]. reflexivity.
Qed.


(** * The derivation engine *)








(** The month key of a year beyond the range of [Date]: the last day of
    the month is an invalid date, and the projection is NaN. *)
Example projectedSpending_year_300000 :
  let md := monthDate [300000; 1] in
  daysElapsedInMonth withinDateRange md midJune2024 = nan
  /\ projectedSpending withinDateRange [rent] (totalSpent [rent])
       (daysElapsedInMonth withinDateRange md midJune2024) md midJune2024 = nan.
Proof. split; vm_compute; reflexivity. Qed.

(** C4 (as amended): [budgetUtilization] is 0 for a zero budget and
    [min((totalSpent / budget) * 100, 100)] otherwise; for a budget that
    is finite and not negative and a total that is not negative it lies
    within [0, 100]. *)
Theorem budgetUtilization_range (budget totalSpent : number) :
  (0 <=? budget) = true -> (budget <? infinity) = true ->
  (0 <=? totalSpent) = true ->
  budgetUtilization budget totalSpent =
    (if budget =? 0 then 0 else Math_min ((totalSpent / budget) * 100) 100)
  /\ (0 <=? budgetUtilization budget totalSpent) = true
  /\ (budgetUtilization budget totalSpent <=? 100) = true.
Proof.
  intros Hb Hfin Ht. split; [reflexivity |].
  unfold budgetUtilization.
  destruct (budget =? 0) eqn:E; [split; reflexivity |].
  destruct (positive_finite budget Hb Hfin E) as (m & e & Eb).
  set (x := totalSpent / budget * 100).
  assert (Hx : nonneg (Prim2SF x) = true).
  { subst x. rewrite FloatAxioms.mul_spec, FloatAxioms.div_spec, Eb.
    change (Prim2SF 100) with (S754_finite false 7036874417766400 (-46)).
    apply SFmul_nonneg, SFdiv_nonneg. rewrite <- leb_zero_nonneg. exact Ht. }
  pose proof (nonneg_not_nan x Hx) as Hnan.
  unfold Math_min. rewrite Hnan.
  change (is_nan 100) with false.
  change (isNegativeZero 100) with false. simpl.
  rewrite orb_false_r.
  destruct (100 <? x) eqn:Elt.
  - split; reflexivity.
  - split.
    + rewrite leb_zero_nonneg. exact Hx.
    + apply leb_of_not_ltb; auto.
Qed.

Lemma budgetUtilization_range_witness :
  budgetUtilization 2000 (totalSpent [rent; coffee]) =
    Math_min ((totalSpent [rent; coffee] / 2000) * 100) 100
  /\ (0 <=? budgetUtilization 2000 (totalSpent [rent; coffee])) = true
  /\ (budgetUtilization 2000 (totalSpent [rent; coffee]) <=? 100) = true.
Proof.
  apply (budgetUtilization_range 2000 (totalSpent [rent; coffee]));
    vm_compute; reflexivity.
Defined.

(** C4, the claim as stated fails: hydration takes any stored number as
    the budget; from the budget text ["-5"] and a month with the rent,
    [budgetUtilization] is [-30000]. *)
Lemma budgetUtilization_negative_budget :
  let st := load (Some overdrawn) "2024-06" "2024-06-15" in
  budget st = (-5)%float
  /\ budgetUtilization (budget st) (totalSpent (filteredExpenses (expenses st) "2024-06"))
     = (-30000)%float
  /\ (0 <=? -30000) = false.
Proof. repeat split; vm_compute; reflexivity. Qed.

(** Scenarios A, B and E of the specification. *)
Example scenario_A :
  totalSpent [] = 0 /\ budgetUtilization 2000 (totalSpent []) = 0
  /\ projectedSpending withinDateRange [] (totalSpent [])
       (daysElapsedInMonth withinDateRange june2024 midJune2024)
       june2024 midJune2024 = 0.
Proof. repeat split. Qed.

Example scenario_B :
  let filtered := filteredExpenses [coffee; rent] "2024-06" in
  totalSpent filtered = 1504.5
  /\ get Housing (categoryTotals filtered) = Some 1500
  /\ get Food (categoryTotals filtered) = Some 4.5.
Proof. repeat split. Qed.

Example scenario_E : budgetUtilization 0 (totalSpent [coffee; rent]) = 0.
Proof. reflexivity. Qed.

Lemma category_eqb_eq a b : category_eqb a b = true <-> a = b.
Proof. apply String.eqb_eq. Qed.

Lemma category_eqb_refl a : category_eqb a a = true.
Proof. now apply category_eqb_eq. Qed.

Lemma category_eqb_sym a b : category_eqb a b = category_eqb b a.
Proof. apply String.eqb_sym. Qed.

Lemma addTo_keys c a totals :
  In c (map fst totals) -> map fst (addTo c a totals) = map fst totals.
Proof.
  induction totals as [| [k v] rest IH]; simpl; [tauto |].
  intros [-> | H].
  - now rewrite category_eqb_refl.
  - destruct (category_eqb k c); simpl; [reflexivity |].
    now rewrite IH.
Qed.

Lemma get_addTo c a c' totals :
  In c (map fst totals) ->
  get c' (addTo c a totals) =
    if category_eqb c c' then option_map (fun v => v + a) (get c' totals)
    else get c' totals.
Proof.
  induction totals as [| [k v] rest IH]; simpl; [tauto |].
  intros H.
  destruct (category_eqb k c) eqn:Ekc.
  - apply category_eqb_eq in Ekc. subst k. simpl.
    destruct (category_eqb c c'); reflexivity.
  - simpl. destruct (category_eqb k c') eqn:Ekc'.
    + apply category_eqb_eq in Ekc'. subst k.
      now rewrite category_eqb_sym, Ekc.
    + apply IH. destruct H as [-> | H]; [| exact H].
      now rewrite category_eqb_refl in Ekc.
Qed.

(** The loop of [categoryTotals], from any totals object that has the
    key of every record. *)
Lemma categoryTotals_loop filtered : forall totals,
  Forall (fun item => In (category item) (map fst totals)) filtered ->
  let totals' :=
    fold_left (fun totals item => addTo (category item) (amount item) totals)
      filtered totals in
  map fst totals' = map fst totals
  /\ forall c, get c totals' =
       option_map
         (fold_left (fun sum current => sum + amount current) (ofCategory c filtered))
         (get c totals).
Proof.
  induction filtered as [| item rest IH]; intros totals Hkeys; simpl.
  - split; [reflexivity |]. intros c. now destruct (get c totals).
  - inversion Hkeys as [| ? ? Hitem Hrest]; subst.
    destruct (IH (addTo (category item) (amount item) totals)) as [K G].
    { rewrite addTo_keys by exact Hitem. exact Hrest. }
    split.
    + rewrite K. apply addTo_keys, Hitem.
    + intros c. rewrite G, get_addTo by exact Hitem.
      destruct (category_eqb (category item) c); simpl; [| reflexivity].
      now destruct (get c totals).
Qed.

(** Two filters that never keep the same element split what their
    disjunction keeps. *)
Lemma filter_split {A} (p q : A -> bool) l :
  (forall x, p x && q x = false) ->
  Permutation (filter p l ++ filter q l) (filter (fun x => p x || q x) l).
Proof.
  intros D. induction l as [| x l IH]; simpl; [constructor |].
  specialize (D x).
  destruct (p x), (q x); simpl in *; try discriminate.
  - now constructor.
  - rewrite <- Permutation_middle. now constructor.
  - exact IH.
Qed.

(** The records of a list of distinct categories, category by category,
    are the records whose category is in the list. *)
Lemma ofCategory_split filtered cs :
  NoDup cs ->
  Permutation (flat_map (fun c => ofCategory c filtered) cs)
    (filter (fun item => existsb (category_eqb (category item)) cs) filtered).
Proof.
  induction 1 as [| c cs Hc Hcs IH]; simpl.
  - induction filtered; simpl; auto.
  - rewrite IH. apply filter_split.
    intros item. destruct (category_eqb (category item) c) eqn:E; [| reflexivity].
    apply category_eqb_eq in E. subst c. simpl.
    destruct (existsb _ cs) eqn:X; [| reflexivity].
    apply existsb_exists in X. destruct X as (c' & Hin & E).
    apply category_eqb_eq in E. now subst c'.
Qed.

(** Records of preset categories are all found under the presets. *)
Lemma presets_cover (l : list Expense) :
  Forall (fun item => In (category item) CATEGORY_PRESETS) l ->
  filter (fun item => existsb (category_eqb (category item)) CATEGORY_PRESETS) l = l.
Proof.
  induction 1 as [| item rest Hitem _ IH]; [reflexivity |].
  cbn [filter]. rewrite IH.
  replace (existsb _ CATEGORY_PRESETS) with true; [reflexivity |].
  symmetry. apply existsb_exists. exists (category item).
  split; [exact Hitem | apply category_eqb_refl].
Qed.

(** C7 (as amended): for records of the 9 preset categories,
    [categoryTotals] has exactly the 9 category keys, in the order of the
    presets; the value under each key is [totalSpent] of the records of
    that category; and the records of the 9 categories together are the
    records of the sequence, each once.  When moreover the amounts are
    numbers [>= 0] other than [Infinity] whose exact sum is at most a
    whole number [B] with [100 * (4 * n + 36) * B <= 2^53], [n] being
    the number of records, then the sum of the 9 values and [totalSpent]
    are finite and their exact values differ by 0.01 at most. *)
Theorem categoryTotals_by_category (filtered : list Expense) :
  Forall (fun item => In (category item) CATEGORY_PRESETS) filtered ->
  map fst (categoryTotals filtered) = CATEGORY_PRESETS
  /\ (forall c, In c CATEGORY_PRESETS ->
        get c (categoryTotals filtered)
        = Some (totalSpent (ofCategory c filtered)))
  /\ Permutation (flat_map (fun c => ofCategory c filtered) CATEGORY_PRESETS)
       filtered
  /\ (forall B : Z,
        amountsFinite filtered = true ->
        (1 <= B)%Z ->
        (sumExact filtered <= inject_Z B)%Q ->
        (100 * (4 * Z.of_nat (List.length filtered) + 36) * B <= 2 ^ 53)%Z ->
        is_finite (totalSpent filtered) = true
        /\ is_finite (sumOfValues (categoryTotals filtered)) = true
        /\ (Qabs (exact (sumOfValues (categoryTotals filtered))
                  - exact (totalSpent filtered)) <= 1 # 100)%Q).
Proof.
  intros Hpresets.
  assert (N : NoDup CATEGORY_PRESETS)
    by (repeat constructor; simpl; intuition discriminate).
  assert (P : Permutation (flat_map (fun c => ofCategory c filtered) CATEGORY_PRESETS)
                filtered).
  { rewrite ofCategory_split, presets_cover; [reflexivity | exact Hpresets | exact N]. }
  assert (KG : map fst (categoryTotals filtered) = CATEGORY_PRESETS
               /\ forall c, In c CATEGORY_PRESETS ->
                    get c (categoryTotals filtered)
                    = Some (totalSpent (ofCategory c filtered))).
  { unfold categoryTotals.
    match goal with
    | |- context [fold_left _ _ ?init] =>
        destruct (categoryTotals_loop filtered init) as [K G]
    end.
    { exact Hpresets. }
    split; [exact K |].
    intros c Hc. rewrite G.
    simpl in Hc. repeat destruct Hc as [<- | Hc]; try reflexivity. contradiction. }
  destruct KG as [K G].
  split; [exact K |]. split; [exact G |]. split; [exact P |].
  intros B F HB HS Hn.
  rewrite sumOfValues_fsum.
  apply (sums_agree filtered _ B); try assumption.
  rewrite <- K. apply values_by_key; rewrite K; assumption.
Qed.

Lemma categoryTotals_by_category_witness :
  let filtered := filteredExpenses [coffee; rent] "2024-06" in
  map fst (categoryTotals filtered) = CATEGORY_PRESETS
  /\ (sumExact filtered == 3009 # 2)%Q
  /\ (Qabs (exact (sumOfValues (categoryTotals filtered))
            - exact (totalSpent filtered)) <= 1 # 100)%Q.
Proof.
  set (filtered := filteredExpenses [coffee; rent] "2024-06").
  assert (H : Forall (fun item => In (category item) CATEGORY_PRESETS) filtered)
    by (repeat constructor; simpl; tauto).
  destruct (categoryTotals_by_category filtered H) as (K & _ & _ & S).
  split; [exact K |]. split; [vm_compute; reflexivity |].
  apply (S 2000%Z); [reflexivity | lia | vm_compute; discriminate |].
  vm_compute. discriminate.
Defined.

(** C7, the claim as stated fails: on [largeJune] the total is 2^53 (each
    added 1 is rounded away) while the category values are 2^53 and 2,
    which sum to 2^53 + 2; the two differ by 2, not by 0.01 at most. *)
Lemma categoryTotals_sum_off :
  let filtered := filteredExpenses largeJune "2024-06" in
  totalSpent filtered = 9007199254740992
  /\ sumOfValues (categoryTotals filtered) = 9007199254740994
  /\ (abs (sumOfValues (categoryTotals filtered) - totalSpent filtered) <=? 0.01)
     = false.
Proof. repeat split; vm_compute; reflexivity. Qed.

(** A record read back from storage may carry any category: a tenth key
    appears, with the value NaN, and the sum of the values is NaN. *)
Example categoryTotals_other_key :
  let pets := {| id := "e8"; description := "Vet"; category := "Pets"%string;
                 amount := 80; date := "2024-06-04"; notes := None |} in
  map fst (categoryTotals [pets]) = CATEGORY_PRESETS ++ ["Pets"%string]
  /\ get "Pets"%string (categoryTotals [pets]) = Some nan
  /\ sumOfValues (categoryTotals [pets]) = nan
  /\ totalSpent [pets] = 80.
Proof. repeat split; vm_compute; reflexivity. Qed.

(** * Sorting by date *)

Lemma insert_perm {A} (cmp : A -> A -> Z) x l :
  Permutation (insert cmp x l) (x :: l).
Proof.
  induction l as [| y l IH]; simpl; [reflexivity |].
  destruct (cmp x y <=? 0)%Z; [reflexivity |].
  rewrite IH. apply perm_swap.
Qed.

Lemma Array_sort_perm {A} (cmp : A -> A -> Z) l :
  Permutation (Array_sort cmp l) l.
Proof.
  induction l as [| x l IH]; simpl; [reflexivity |].
  rewrite insert_perm. now constructor.
Qed.

(** The comparator [(a, b) => b.date.localeCompare(a.date)] puts [a]
    first exactly when [b]'s date is not after [a]'s. *)
Lemma comparator_dateDescending a b :
  (localeCompare (date b) (date a) <=? 0)%Z = String.leb (date b) (date a).
Proof.
  unfold localeCompare, String.leb.
  destruct (String.compare (date b) (date a)); reflexivity.
Qed.

Lemma insert_sorted x l :
  Sorted dateDescending l ->
  Sorted dateDescending (insert (fun a b => localeCompare (date b) (date a)) x l).
Proof.
  induction 1 as [| y l Hs IH Hd]; simpl.
  - repeat constructor.
  - rewrite comparator_dateDescending.
    destruct (String.leb (date y) (date x)) eqn:E.
    + repeat constructor; assumption.
    + constructor; [exact IH |].
      assert (Hyx : dateDescending y x).
      { unfold dateDescending.
        destruct (String.leb_total (date x) (date y)); congruence. }
      destruct Hd as [| z l Hz]; simpl.
      * now constructor.
      * rewrite comparator_dateDescending.
        destruct (String.leb (date z) (date x)); now constructor.
Qed.

Lemma sortByDateDescending_sorted l : Sorted dateDescending (sortByDateDescending l).
Proof.
  unfold sortByDateDescending.
  induction l as [| x l IH]; simpl; [constructor |].
  apply insert_sorted, IH.
Qed.

(** A list already in order is left as it is. *)
Lemma sortByDateDescending_id l :
  Sorted dateDescending l -> sortByDateDescending l = l.
Proof.
  unfold sortByDateDescending.
  induction 1 as [| x l Hs IH Hd]; simpl; [reflexivity |].
  rewrite IH. destruct Hd as [| y l Hy]; simpl; [reflexivity |].
  rewrite comparator_dateDescending. unfold dateDescending in Hy.
  now rewrite Hy.
Qed.

Lemma String_leb_trans a : forall b c,
  String.leb a b = true -> String.leb b c = true -> String.leb a c = true.
Proof.
  unfold String.leb.
  induction a as [| x a IH]; intros [| y b] [| z c]; simpl; try congruence.
  unfold Ascii.compare. intros Hab Hbc.
  destruct (N.compare_spec (N_of_ascii x) (N_of_ascii y));
    destruct (N.compare_spec (N_of_ascii y) (N_of_ascii z));
    destruct (N.compare_spec (N_of_ascii x) (N_of_ascii z));
    try congruence; try lia.
  now apply (IH b c).
Qed.

Lemma dateDescending_trans : Relations_1.Transitive dateDescending.
Proof.
  intros a b c Hab Hbc. unfold dateDescending in *.
  now apply (String_leb_trans (date c) (date b) (date a)).
Qed.

(** Every record is dated no earlier than every record after it. *)
Lemma sortByDateDescending_strongly_sorted l :
  StronglySorted dateDescending (sortByDateDescending l).
Proof.
  apply Sorted_StronglySorted;
    [exact dateDescending_trans | apply sortByDateDescending_sorted].
Qed.

Lemma sortByDateDescending_perm l : Permutation (sortByDateDescending l) l.
Proof. apply Array_sort_perm. Qed.

(** * Validation and the add-expense path *)

Example toFixed2_examples :
  toFixed2 1500 = 1500 /\ toFixed2 4.5 = 4.5 /\ toFixed2 12.345 = 12.35
  /\ toFixed2 2.675 = 2.67 /\ toFixed2 0.005 = 0.01 /\ toFixed2 0.001 = 0.
Proof. repeat split; vm_compute; reflexivity. Qed.

Lemma messages_differ :
  EmptyDescription <> InvalidAmount /\ EmptyString <> EmptyDescription
  /\ EmptyString <> InvalidAmount.
Proof. repeat split; discriminate. Qed.

(** C5 (as amended): [handleSubmit] fails with [EmptyDescription] exactly
    when the trimmed description is empty, and with [InvalidAmount]
    exactly when the trimmed description is not empty and the amount text
    reads as NaN or as a value [<= 0]; on either failure the collection
    and the budget are unchanged. *)
Theorem handleSubmit_rejections (uuid : string) (st : State) :
  let f := form st in
  let st' := handleSubmit uuid st in
  (error st' = EmptyDescription <-> trim (Form.description f) = EmptyString)
  /\ (error st' = InvalidAmount <->
        trim (Form.description f) <> EmptyString
        /\ (Number_isNaN (Form.amount f) = true \/ (Form.amount f <=? 0) = true))
  /\ (error st' = EmptyDescription \/ error st' = InvalidAmount ->
        expenses st' = expenses st /\ budget st' = budget st).
Proof.
  destruct messages_differ as (D1 & D2 & D3).
  unfold handleSubmit. simpl.
  destruct (String.eqb_spec (trim (Form.description (form st))) "") as [Ed | Ed];
    [| destruct (Number_isNaN (Form.amount (form st))) eqn:En;
       [| destruct (Form.amount (form st) <=? 0) eqn:El ] ];
    simpl; repeat split; intros;
    repeat match goal with
           | H : _ /\ _ |- _ => destruct H
           | H : _ \/ _ |- _ => destruct H
           end;
    try congruence; try tauto.
Qed.

(** C5, the claim as stated fails: with a blank description the amount
    text ["abc"] does not bring [InvalidAmount]; the description check
    comes first and the failure is [EmptyDescription]. *)
Lemma handleSubmit_blank_description_first :
  let st := setForm blankForm firstRender in
  Number_isNaN (Form.amount (form st)) = true
  /\ error (handleSubmit "u1" st) = EmptyDescription
  /\ error (handleSubmit "u1" st) <> InvalidAmount.
Proof. repeat split; try reflexivity. vm_compute. discriminate. Qed.

(** White space beyond ASCII is trimmed too: a description of one
    no-break space (U+00A0, the bytes C2 A0) between two spaces is empty
    after [trim], and so is one of a line separator (U+2028) and a byte
    order mark (U+FEFF). *)
Example handleSubmit_no_break_space :
  let nbsp := String (ascii_of_nat 194) (String (ascii_of_nat 160) "") in
  let separators :=
    String (ascii_of_nat 226) (String (ascii_of_nat 128) (String (ascii_of_nat 168)
      (String (ascii_of_nat 239) (String (ascii_of_nat 187)
        (String (ascii_of_nat 191) ""))))) in
  let st := setForm {| Form.description := " " ++ nbsp ++ " "; Form.amount := 5;
                       Form.category := Food; Form.date := "2024-06-02";
                       Form.notes := separators |} firstRender in
  trim (" " ++ nbsp ++ " ") = EmptyString
  /\ trim separators = EmptyString
  /\ trim (nbsp ++ "Tea" ++ nbsp) = "Tea"%string
  /\ error (handleSubmit "u1" st) = EmptyDescription.
Proof. repeat split; vm_compute; reflexivity. Qed.

(** C6: a request with a non-empty trimmed description and an amount that
    reads as a value [> 0] puts one new record in front of the
    collection, the records already there kept as they are: its id is the
    generated one, its description trimmed, its notes the trimmed notes
    or absent when those are empty, its amount the amount rounded to two
    decimal places: the double nearest to [n / 100] for the integer [n]
    nearest to 100 times the exact value of the amount read (the larger
    [n] on a tie), or the amount itself from [1e21] on.  A generated id
    that is not in use keeps the ids distinct. *)
Theorem handleSubmit_accepts (uuid : string) (st : State) :
  trim (Form.description (form st)) <> EmptyString ->
  (0 <? Form.amount (form st)) = true ->
  let f := form st in
  let st' := handleSubmit uuid st in
  let rounded := toFixed2 (Form.amount f) in
  expenses st' =
    {| id := uuid;
       description := trim (Form.description f);
       category := Form.category f;
       amount := rounded;
       date := Form.date f;
       notes := if String.eqb (trim (Form.notes f)) "" then None
                else Some (trim (Form.notes f)) |} :: expenses st
  /\ ((Form.amount f <? 1e21) = true ->
      exists n : Z,
        (100 * exact (Form.amount f) - (1 # 2) < inject_Z n)%Q
        /\ (inject_Z n <= 100 * exact (Form.amount f) + (1 # 2))%Q
        /\ rounded = match n with
                     | Z.pos p => hundredths false p
                     | _ => 0
                     end)
  /\ ((1e21 <=? Form.amount f) = true -> rounded = Form.amount f)
  /\ (NoDup (map id (expenses st)) -> ~ In uuid (map id (expenses st)) ->
      NoDup (map id (expenses st')))
  /\ budget st' = budget st
  /\ error st' = EmptyString.
Proof.
  intros Hd Ha f st' rounded.
  destruct (positive_passes _ Ha) as [Hn Hl].
  destruct (toFixed2_rounds _ Ha) as [Big Small].
  assert (E : expenses st' =
                {| id := uuid;
                   description := trim (Form.description f);
                   category := Form.category f;
                   amount := rounded;
                   date := Form.date f;
                   notes := if String.eqb (trim (Form.notes f)) "" then None
                            else Some (trim (Form.notes f)) |} :: expenses st).
  { subst st' rounded f. unfold handleSubmit. simpl.
    destruct (String.eqb_spec (trim (Form.description (form st))) "") as [Ed | Ed];
      [contradiction |].
    unfold Number_isNaN. rewrite Hn, Hl. reflexivity. }
  split; [exact E |]. split; [exact Small |]. split; [exact Big |].
  split; [| subst st'; unfold handleSubmit; simpl;
            destruct (String.eqb_spec (trim (Form.description (form st))) "")
              as [Ed | Ed]; [contradiction |];
            unfold Number_isNaN; rewrite Hn, Hl; simpl; split; reflexivity].
  intros N Fresh. rewrite E. simpl. constructor; assumption.
Qed.

Lemma handleSubmit_accepts_witness :
  let st := setForm teaForm (setExpenses (fun _ => [coffee]) firstRender) in
  Form.amount (form st) = 12.345
  /\ expenses (handleSubmit "e7" st)
     = [ {| id := "e7"; description := "Tea"; category := Food; amount := 12.35;
            date := "2024-06-03"; notes := None |}; coffee ]
  /\ NoDup (map id (expenses (handleSubmit "e7" st))).
Proof.
  set (st := setForm teaForm (setExpenses (fun _ => [coffee]) firstRender)).
  assert (Hd : trim (Form.description (form st)) <> EmptyString)
    by (vm_compute; discriminate).
  assert (Ha : (0 <? Form.amount (form st)) = true) by (vm_compute; reflexivity).
  assert (N : NoDup (map id (expenses st))) by (repeat constructor; simpl; tauto).
  assert (Fresh : ~ In "e7"%string (map id (expenses st)))
    by (simpl; intuition discriminate).
  destruct (handleSubmit_accepts "e7" st Hd Ha) as (E & _ & _ & D & _ & _).
  split; [reflexivity |]. split; [| exact (D N Fresh)].
  rewrite E. vm_compute. reflexivity.
Defined.

(** The rounding at work: the amount text ["12.345"] reads as the double
    just above 12.345, whose hundredfold is nearest to 1235. *)
Example toFixed2_rounds_example :
  exact 12.345 = (6949617174986097 # 562949953421312)%Q
  /\ toFixed2 12.345 = hundredths false 1235 /\ hundredths false 1235 = 12.35.
Proof. repeat split; vm_compute; reflexivity. Qed.

(** * Hydration *)

Lemma filterWellFormed_kept parsed :
  filterWellFormed parsed =
    if existsb isNull parsed then Throw else Normal (keptObjects parsed).
Proof.
  induction parsed as [| entry rest IH]; simpl; [reflexivity |].
  destruct entry as [| | o]; simpl; [reflexivity | exact IH |].
  rewrite IH. destruct (existsb isNull rest); simpl; [reflexivity |].
  now destruct (wellFormed o).
Qed.

Lemma keptEntries_keptObjects parsed :
  keptEntries parsed = map asExpense (keptObjects parsed).
Proof.
  induction parsed as [| entry rest IH]; simpl; [reflexivity |].
  rewrite map_app, <- IH.
  destruct entry as [| | o]; simpl; try reflexivity.
  now destruct (wellFormed o).
Qed.

(** The state the hydration effect leaves. *)
Lemma hydrate_state storage st :
  let st' := fst (hydrate (Some storage) st) in
  isReady st' = true
  /\ expenses st' =
       match storedExpenses storage with
       | ExpensesArray parsed =>
           if existsb isNull parsed || negb (datesTyped parsed) then expenses st
           else sortByDateDescending (keptEntries parsed)
       | _ => expenses st
       end
  /\ budget st' =
       if expensesReadable (storedExpenses storage) then
         match storedBudget storage with
         | BudgetText parsedBudget =>
             if Number_isNaN parsedBudget then budget st else parsedBudget
         | _ => budget st
         end
       else budget st.
Proof.
  unfold hydrate, getItem_expenses, getItem_budget, hydrateTry. simpl.
  destruct (storedExpenses storage) as [| | | | parsed]; simpl;
    try (destruct (storedBudget storage) as [| | b]; simpl;
         try destruct (Number_isNaN b); simpl; repeat split; reflexivity).
  rewrite filterWellFormed_kept, keptEntries_keptObjects.
  unfold datesTyped, sortStored.
  destruct (existsb isNull parsed); simpl; [repeat split; reflexivity |].
  destruct (forallb hasDate (keptObjects parsed)); simpl;
    [| repeat split; reflexivity].
  destruct (storedBudget storage) as [| | b]; simpl;
    try destruct (Number_isNaN b); simpl; repeat split; reflexivity.
Qed.

(** The same from the first render: an empty collection and the budget 2000. *)
Lemma load_state storage dm iso :
  let st := load (Some storage) dm iso in
  isReady st = true
  /\ expenses st =
       match storedExpenses storage with
       | ExpensesArray parsed =>
           if existsb isNull parsed || negb (datesTyped parsed) then []
           else sortByDateDescending (keptEntries parsed)
       | _ => []
       end
  /\ budget st =
       if expensesReadable (storedExpenses storage) then
         match storedBudget storage with
         | BudgetText parsedBudget =>
             if Number_isNaN parsedBudget then 2000 else parsedBudget
         | _ => 2000
         end
       else 2000.
Proof. apply (hydrate_state storage (initialState dm iso)). Qed.







(** The stored order is not kept: an array saved as [rent; coffee] loads
    as [coffee; rent]. *)
Example load_resorts :
  expenses (load (Some {| storedExpenses :=
                            ExpensesArray [stringifyExpense rent; stringifyExpense coffee];
                          storedBudget := BudgetAbsent; calls := [] |})
              "2024-06" "2024-06-15")
  = [coffee; rent].
Proof. reflexivity. Qed.

(** * Persistence round trip *)

Lemma stringify_survives l :
  forallb survivesStorage l = true ->
  existsb isNull (map stringifyExpense l) = false
  /\ keptEntries (map stringifyExpense l) = l
  /\ datesTyped (map stringifyExpense l) = true.
Proof.
  unfold datesTyped.
  induction l as [| e l IH]; simpl; [auto |].
  intros H. apply andb_prop in H. destruct H as [He Hl].
  destruct (IH Hl) as (N & K & D). split; [exact N |].
  unfold survivesStorage in He.
  apply andb_prop in He. destruct He as [He Hid].
  apply andb_prop in He. destruct He as [Hfin Hz].
  unfold wellFormed, asExpense, printed. simpl.
  rewrite Hfin, Hid. simpl. rewrite K, D.
  apply negb_true_iff in Hz. rewrite Hz.
  split; [now destruct e | reflexivity].
Qed.

(** C2 (as amended): for a collection whose records are dated
    [YYYY-MM-DD] and have finite amounts other than [-0] and non-empty
    ids, and a budget that is neither NaN nor [-0], [save] followed by
    [load] yields the same budget and the saved records re-sorted by
    date, most recent first; the collection comes back as it was saved
    when it was in that order. *)
Theorem save_then_load (st : State) (storage : Storage) (dm iso : string) :
  isReady st = true ->
  forallb survivesStorage (expenses st) = true ->
  datesFormatted (expenses st) = true ->
  Number_isNaN (budget st) = false ->
  isNegativeZero (budget st) = false ->
  let st' := load (save (Some storage) st) dm iso in
  expenses st' = sortByDateDescending (expenses st)
  /\ Permutation (expenses st) (expenses st')
  /\ StronglySorted dateDescending (expenses st')
  /\ budget st' = budget st
  /\ (Sorted dateDescending (expenses st) -> expenses st' = expenses st).
Proof.
  intros Hr Hs _ Hn Hz.
  destruct (stringify_survives _ Hs) as (N & K & D).
  unfold save, saveBudget, saveExpenses. rewrite Hr. cbn [negb]. cbv zeta.
  set (stored := setItem_budget _ _).
  destruct (load_state stored dm iso) as (_ & E & B).
  change (storedExpenses stored)
    with (ExpensesArray (map stringifyExpense (expenses st))) in E, B.
  change (storedBudget stored) with (BudgetText (printed (budget st))) in B.
  cbn [expensesReadable] in B. cbv beta iota in E, B.
  rewrite N, D in E, B. rewrite K in E.
  cbn [negb andb orb] in E, B. unfold printed in B. rewrite Hz, Hn in B.
  rewrite E.
  split; [reflexivity |].
  split; [symmetry; apply sortByDateDescending_perm |].
  split; [apply sortByDateDescending_strongly_sorted |].
  split; [exact B |].
  intros Hsorted. now apply sortByDateDescending_id.
Qed.

Lemma save_then_load_witness :
  let w := run emptyTab twoAddsByDate in
  expenses (state w) = [coffee; rent]
  /\ expenses (load (save (window w) (state w)) "2024-06" "2024-06-15") = [coffee; rent]
  /\ budget (load (save (window w) (state w)) "2024-06" "2024-06-15") = 2000.
Proof.
  set (st := state (run emptyTab twoAddsByDate)).
  set (storage := {| storedExpenses := ExpensesAbsent; storedBudget := BudgetAbsent;
                     calls := [GetItem STORAGE_KEYS_budget; GetItem STORAGE_KEYS_expenses] |}).
  assert (Hr : isReady st = true) by reflexivity.
  assert (Hs : forallb survivesStorage (expenses st) = true) by (vm_compute; reflexivity).
  assert (Hd : datesFormatted (expenses st) = true) by (vm_compute; reflexivity).
  assert (Hn : Number_isNaN (budget st) = false) by (vm_compute; reflexivity).
  assert (Hz : isNegativeZero (budget st) = false) by (vm_compute; reflexivity).
  assert (Hsorted : Sorted dateDescending (expenses st))
    by (repeat constructor; vm_compute; reflexivity).
  destruct (save_then_load st storage "2024-06" "2024-06-15" Hr Hs Hd Hn Hz)
    as (_ & _ & _ & B & E).
  split; [vm_compute; reflexivity |]. split.
  - exact (E Hsorted).
  - exact B.
Defined.

(** C2, the claim as stated fails: after [twoAdds] the collection is
    [rent; coffee], the latest added first; saved and loaded again it is
    [coffee; rent]. *)
Lemma save_then_load_reorders :
  let w := run emptyTab twoAdds in
  expenses (state w) = [rent; coffee]
  /\ expenses (load (save (window w) (state w)) "2024-06" "2024-06-15") = [coffee; rent]
  /\ [coffee; rent] <> [rent; coffee].
Proof.
  repeat split; try (vm_compute; reflexivity).
  intros H. inversion H.
Qed.

(** * The collection invariant *)





Lemma step_hydrate_window w :
  window (step w RunHydrate) = snd (hydrate (window w) (state w)).
Proof. simpl. now destruct (hydrate (window w) (state w)). Qed.





(** The positivity check of [handleSubmit] comes before the rounding: an
    amount text of ["0.001"] passes it and is stored as 0. *)
Example handleSubmit_rounds_to_zero :
  let f := {| Form.description := "Gum"; Form.amount := 0.001;
              Form.category := Food; Form.date := "2024-06-02"; Form.notes := "" |} in
  map amount (expenses (handleSubmit "e9" (setForm f firstRender))) = [0].
Proof. vm_compute. reflexivity. Qed.

(** * Load before save *)

Lemma savesFollowLoad_snoc history : forall readExpenses readBudget c,
  savesFollowLoad readExpenses readBudget (history ++ [c]) =
    savesFollowLoad readExpenses readBudget history
    && (negb (isSetItem c)
        || ((readExpenses || existsb (isGetItem STORAGE_KEYS_expenses) history)
            && (readBudget || existsb (isGetItem STORAGE_KEYS_budget) history))).
Proof.
  induction history as [| c' rest IH]; intros re rb c; simpl.
  - now rewrite !orb_false_r, andb_true_r.
  - rewrite IH, <- !andb_assoc, !orb_assoc. reflexivity.
Qed.

Lemma existsb_rev {A} (f : A -> bool) l : existsb f (rev l) = existsb f l.
Proof.
  induction l as [| x l IH]; simpl; [reflexivity |].
  rewrite existsb_app, IH. simpl. rewrite orb_false_r. apply orb_comm.
Qed.

Lemma handleSubmit_isReady uuid st : isReady (handleSubmit uuid st) = isReady st.
Proof.
  unfold handleSubmit. simpl.
  destruct (String.eqb _ _); [reflexivity |].
  now destruct (_ || _).
Qed.

Lemma step_loadedBeforeSaving w ev :
  loadedBeforeSaving w -> loadedBeforeSaving (step w ev).
Proof.
  intros (storage & W & S & R).
  destruct ev as [| | | uuid | id' | value | f | m];
    try (exists storage; repeat split; solve [ assumption | apply R; assumption ]).
  - (* the hydration effect *)
    eexists. split; [rewrite step_hydrate_window, W; reflexivity |].
    cbn [calls rev]. split; [| intros _; split; reflexivity].
    rewrite !savesFollowLoad_snoc, S. reflexivity.
  - (* the expenses save effect *)
    cbn [step window state]. unfold saveExpenses. rewrite W.
    destruct (isReady (state w)) eqn:Ready; cbn [negb].
    + destruct (R eq_refl) as [RE RB].
      eexists. split; [reflexivity |]. cbn [setItem_expenses calls rev].
      split; [| intros _; simpl; rewrite RE, RB; split; reflexivity].
      rewrite savesFollowLoad_snoc, S, !existsb_rev, RE, RB. reflexivity.
    + exists storage. split; [reflexivity |]. split; [exact S |].
      cbn [state]. rewrite Ready. discriminate.
  - (* the budget save effect *)
    cbn [step window state]. unfold saveBudget. rewrite W.
    destruct (isReady (state w)) eqn:Ready; cbn [negb].
    + destruct (R eq_refl) as [RE RB].
      eexists. split; [reflexivity |]. cbn [setItem_budget calls rev].
      split; [| intros _; simpl; rewrite RE, RB; split; reflexivity].
      rewrite savesFollowLoad_snoc, S, !existsb_rev, RE, RB. reflexivity.
    + exists storage. split; [reflexivity |]. split; [exact S |].
      cbn [state]. rewrite Ready. discriminate.
  - (* a submit *)
    exists storage. cbn [step window state]. rewrite handleSubmit_isReady.
    repeat split; solve [ assumption | apply R; assumption ].
Qed.

(** C9: in every execution of a mounted component, whatever the store
    held, whichever effects and user actions follow and in whatever
    order, every [setItem] on the store comes after the hydration
    effect's two [getItem]s: nothing is saved before the load. *)
Theorem saves_follow_load
    (se : StoredExpenses) (sb : StoredBudget) (dm iso : string)
    (events : list Event) :
  exists storage,
    window (run (mounted se sb dm iso) events) = Some storage
    /\ savesFollowLoad false false (rev (calls storage)) = true.
Proof.
  assert (G : forall evs w, loadedBeforeSaving w -> loadedBeforeSaving (run w evs)).
  { induction evs as [| ev evs IH]; intros w L; simpl; [exact L |].
    apply IH, step_loadedBeforeSaving, L. }
  destruct (G events (mounted se sb dm iso)) as (storage & W & S & _).
  - eexists. split; [reflexivity |]. split; [reflexivity | discriminate].
  - exists storage. now split.
Qed.

(** A save effect that runs before the hydration effect writes nothing;
    after it, the save is the third call. *)
Example save_waits_for_load :
  let w := run (mounted (ExpensesArray [stringifyExpense rent]) (BudgetText 500)
                  "2024-06" "2024-06-15")
               [RunSaveExpenses; RunSaveBudget; RunHydrate; RunSaveBudget] in
  option_map (fun storage => rev (calls storage)) (window w) =
    Some [GetItem STORAGE_KEYS_expenses; GetItem STORAGE_KEYS_budget;
          SetItem STORAGE_KEYS_budget]
  /\ option_map storedBudget (window w) = Some (BudgetText 500).
Proof. split; reflexivity. Qed.

(** * Budget and category summaries *)

(** X1: [remainingBudget] is never negative: when [budget - totalSpent] is
    a number, the result is that difference or 0, and is [>= 0]. *)
Theorem remainingBudget_not_negative (budget totalSpent : number) :
  is_nan (budget - totalSpent) = false ->
  (0 <=? remainingBudget budget totalSpent) = true
  /\ (remainingBudget budget totalSpent = budget - totalSpent
      \/ remainingBudget budget totalSpent = 0).
Proof.
  intros H. unfold remainingBudget.
  destruct (Math_max_spec (budget - totalSpent) 0 H eq_refl) as (E & _ & L).
  split; [exact L | exact E].
Qed.

Lemma remainingBudget_not_negative_witness :
  is_nan (2000 - totalSpent [rent; coffee]) = false
  /\ (0 <=? remainingBudget 2000 (totalSpent [rent; coffee])) = true.
Proof.
  assert (H : is_nan (2000 - totalSpent [rent; coffee]) = false)
    by (vm_compute; reflexivity).
  split; [exact H |].
  exact (proj1 (remainingBudget_not_negative 2000 (totalSpent [rent; coffee]) H)).
Defined.

Lemma highest_fold vs : forall acc,
  is_nan acc = false -> allNumbers vs = true ->
  let h := fold_left Math_max vs acc in
  is_nan h = false
  /\ (acc <=? h) = true
  /\ (forall v, In v vs -> (v <=? h) = true)
  /\ (h = acc \/ In h vs).
Proof.
  induction vs as [| v vs IH]; intros acc Ha Hvs; simpl.
  - split; [exact Ha |]. split; [now apply leb_refl |]. split; [intros v [] | now left].
  - unfold allNumbers in *. simpl in Hvs.
    apply andb_prop in Hvs. destruct Hvs as [Hv Hvs].
    apply negb_true_iff in Hv.
    destruct (Math_max_spec acc v Ha Hv) as (E & La & Lv).
    assert (Hm : is_nan (Math_max acc v) = false) by (destruct E as [-> | ->]; assumption).
    destruct (IH (Math_max acc v) Hm Hvs) as (Hn & L & A & I).
    split; [exact Hn |]. split; [now apply (leb_trans _ (Math_max acc v)) |]. split.
    + intros w [<- | Hw]; [now apply (leb_trans _ (Math_max acc v)) | now apply A].
    + destruct I as [I | I]; [| now right; right].
      rewrite I. destruct E as [-> | ->]; [now left | now right; left].
Qed.

Lemma highest_nan vs : forall acc,
  is_nan acc || negb (allNumbers vs) = true ->
  is_nan (fold_left Math_max vs acc) = true.
Proof.
  unfold allNumbers.
  induction vs as [| v vs IH]; intros acc H; simpl in *.
  - destruct (is_nan acc); [reflexivity | discriminate H].
  - apply IH. destruct (is_nan acc) eqn:Ha; simpl in *.
    + rewrite Math_max_nan by (now rewrite Ha). reflexivity.
    + destruct (is_nan v) eqn:Hv; simpl in *.
      * rewrite Math_max_nan by (now rewrite Ha, Hv). reflexivity.
      * rewrite H. apply orb_true_r.
Qed.

(** X2: [highestCategoryValue] is the maximum of 0 and the values: when no
    value is NaN it is [>= 0], [>=] every value, and is 0 or one of the
    values; when some value is NaN it is NaN. *)
Theorem highestCategoryValue_is_maximum (totals : Totals) :
  if allNumbers (map snd totals) then
    (0 <=? highestCategoryValue totals) = true
    /\ (forall c v, In (c, v) totals -> (v <=? highestCategoryValue totals) = true)
    /\ (highestCategoryValue totals = 0
        \/ exists c, In (c, highestCategoryValue totals) totals)
  else is_nan (highestCategoryValue totals) = true.
Proof.
  unfold highestCategoryValue.
  destruct (allNumbers (map snd totals)) eqn:N.
  - destruct (highest_fold (map snd totals) 0 eq_refl N) as (_ & L & A & I).
    split; [exact L |]. split.
    + intros c v Hin. apply A. apply in_map_iff. now exists (c, v).
    + destruct I as [I | I]; [now left | right].
      apply in_map_iff in I. destruct I as ([c v] & E & Hin). simpl in E.
      exists c. now rewrite <- E.
  - apply highest_nan. now rewrite N.
Qed.

Lemma top_fold totals : forall m top,
  is_nan m = false -> (snd top =? m) = true ->
  allNumbers (map snd totals) = true ->
  let t := fold_left (fun top current : ExpenseCategory * number =>
                        if snd top <? snd current then current else top)
             totals top in
  (snd t =? fold_left Math_max (map snd totals) m) = true
  /\ (t = top \/ In t totals).
Proof.
  unfold allNumbers.
  induction totals as [| [c v] totals IH]; intros m top Hm E N; simpl.
  - split; [exact E | now left].
  - simpl in N. apply andb_prop in N. destruct N as [Hv N].
    apply negb_true_iff in Hv.
    unfold number in *. rewrite (ltb_eqb_compat _ _ v E Hv).
    unfold Math_max at 2. rewrite Hm, Hv. simpl.
    destruct (m <? v) eqn:L; simpl.
    + destruct (IH v (c, v) Hv (eqb_refl v Hv) N) as [E' I].
      split; [exact E' |]. destruct I as [-> | I]; right; [now left | now right].
    + destruct (isPositiveZero v && isNegativeZero m) eqn:Z.
      * assert (E2 : (snd top =? v) = true).
        { apply andb_prop in Z. destruct Z as [Zv Zm].
          unfold isPositiveZero, isNegativeZero, is_zero in *.
          apply andb_prop in Zv, Zm. destruct Zv as [Zv _], Zm as [Zm _].
          destruct (eqb_both _ _ E) as [A B], (eqb_both _ _ Zv) as [C D],
            (eqb_both _ _ Zm) as [F G].
          rewrite eqb_leb. apply andb_true_intro. split.
          - apply (leb_trans _ m); [exact A |]. now apply (leb_trans _ 0).
          - apply (leb_trans _ m); [| exact B]. now apply (leb_trans _ 0). }
        destruct (IH v top Hv E2 N) as [E' I].
        split; [exact E' |]. destruct I as [-> | I]; [now left | now right; right].
      * destruct (IH m top Hm E N) as [E' I].
        split; [exact E' |]. destruct I as [-> | I]; [now left | now right; right].
Qed.

(** X3: when no value is NaN and [highestCategoryValue > 0], the "Highest
    spend" label names a category whose total is [highestCategoryValue]. *)
Theorem highestSpend_names_the_maximum (totals : Totals) :
  allNumbers (map snd totals) = true ->
  (0 <? highestCategoryValue totals) = true ->
  exists c,
    highestSpend (highestCategoryValue totals) totals = Some c
    /\ In (c, highestCategoryValue totals) totals.
Proof.
  intros N P. unfold highestSpend. rewrite P.
  destruct (top_fold totals 0 (Other, 0) eq_refl eq_refl N) as [E I].
  fold (topEntry totals) in E, I. fold (highestCategoryValue totals) in E.
  pose proof (eqb_positive_eq _ _ E P) as V.
  exists (fst (topEntry totals)). split; [reflexivity |].
  destruct I as [I | I].
  - rewrite I in V. simpl in V. rewrite <- V in P. discriminate P.
  - rewrite <- V, <- surjective_pairing. exact I.
Qed.

Lemma highestSpend_names_the_maximum_witness :
  highestSpend (highestCategoryValue (categoryTotals [coffee; rent]))
    (categoryTotals [coffee; rent]) = Some Housing.
Proof.
  assert (N : allNumbers (map snd (categoryTotals [coffee; rent])) = true)
    by (vm_compute; reflexivity).
  assert (P : (0 <? highestCategoryValue (categoryTotals [coffee; rent])) = true)
    by (vm_compute; reflexivity).
  destruct (highestSpend_names_the_maximum (categoryTotals [coffee; rent]) N P)
    as (c & E & _).
  rewrite E. vm_compute in E. symmetry. exact E.
Defined.

(** * Month options *)

Lemma includes_In array x : includes array x = true <-> In x array.
Proof.
  unfold includes. rewrite existsb_exists. split.
  - intros (y & Hy & E). apply String.eqb_eq in E. now subst.
  - intros H. exists x. split; [exact H | apply String.eqb_refl].
Qed.

Lemma Set_fold_In array : forall set x,
  In x (fold_left Set_add array set) <-> In x set \/ In x array.
Proof.
  induction array as [| y array IH]; intros set x; simpl; [tauto |].
  rewrite IH. unfold Set_add.
  destruct (includes set y) eqn:E.
  - apply includes_In in E. split; [tauto |].
    intros [H | [<- | H]]; tauto.
  - rewrite in_app_iff. simpl. tauto.
Qed.

Lemma Set_fold_NoDup array : forall set,
  NoDup set -> NoDup (fold_left Set_add array set).
Proof.
  induction array as [| y array IH]; intros set H; simpl; [exact H |].
  apply IH. unfold Set_add.
  destruct (includes set y) eqn:E; [exact H |].
  apply NoDup_app; [exact H | repeat constructor; tauto |].
  intros z Hz [<- | []]. apply includes_In in Hz. congruence.
Qed.

Section SortFacts.
Context {A : Type} (cmp : A -> A -> Z).
Hypothesis cmp_total : forall x y, (cmp x y <=? 0)%Z = false -> (cmp y x <=? 0)%Z = true.

Lemma insert_keeps_Sorted x l :
  Sorted (fun a b => (cmp a b <=? 0)%Z = true) l ->
  Sorted (fun a b => (cmp a b <=? 0)%Z = true) (insert cmp x l).
Proof.
  induction 1 as [| y l Hs IH Hd]; simpl.
  - repeat constructor.
  - destruct (cmp x y <=? 0)%Z eqn:E.
    + repeat constructor; assumption.
    + constructor; [exact IH |].
      destruct Hd as [| z l Hz]; simpl.
      * constructor. now apply cmp_total.
      * destruct (cmp x z <=? 0)%Z; constructor; [now apply cmp_total | exact Hz].
Qed.

Lemma Array_sort_Sorted l :
  Sorted (fun a b => (cmp a b <=? 0)%Z = true) (Array_sort cmp l).
Proof.
  induction l as [| x l IH]; simpl; [constructor | now apply insert_keeps_Sorted].
Qed.
End SortFacts.

Lemma monthOptions_In collection defaultMonth m :
  In m (monthOptions collection defaultMonth) <->
  m = defaultMonth \/ exists item, In item collection /\ slice0 7 (date item) = m.
Proof.
  unfold monthOptions.
  rewrite (Permutation_in' (eq_refl m) (Array_sort_perm _ _)).
  unfold Set_from. rewrite Set_fold_In, in_app_iff, in_map_iff. simpl.
  split.
  - intros [[] | [(item & E & H) | [E | []]]]; [right; now exists item | now left].
  - intros [E | (item & H & E)]; right; [right; now left | left; now exists item].
Qed.

Lemma descending_strict (l : list string) :
  NoDup l -> StronglySorted (fun a b => String.leb b a = true) l ->
  StronglySorted laterMonth l.
Proof.
  induction 2 as [| a l Hs IH Ha]; [constructor |].
  inversion H as [| ? ? Hnotin Hl]; subst.
  constructor; [now apply IH |].
  rewrite Forall_forall in *. intros b Hb.
  specialize (Ha b Hb). unfold laterMonth, String.ltb, String.leb in *.
  destruct (String.compare b a) eqn:C; try reflexivity; try discriminate.
  apply String.compare_eq_iff in C. subst. contradiction.
Qed.

Lemma monthOptions_order collection defaultMonth :
  StronglySorted laterMonth (monthOptions collection defaultMonth)
  /\ NoDup (monthOptions collection defaultMonth).
Proof.
  assert (N : NoDup (monthOptions collection defaultMonth)).
  { unfold monthOptions.
    apply (Permutation_NoDup (Permutation_sym (Array_sort_perm _ _))).
    apply Set_fold_NoDup. constructor. }
  split; [| exact N].
  apply descending_strict; [exact N |].
  unfold monthOptions. apply Sorted_StronglySorted.
  - intros a b c Hab Hbc. now apply (String_leb_trans c b a).
  - match goal with
    | |- Sorted _ (Array_sort ?cmp ?l) =>
        pose proof (Array_sort_Sorted cmp) as S
    end.
    assert (T : forall x y : string,
               (localeCompare y x <=? 0)%Z = false -> (localeCompare x y <=? 0)%Z = true).
    { intros x y. unfold localeCompare. rewrite (String.compare_antisym x y).
      destruct (String.compare y x); cbv; congruence. }
    specialize (S T). 
    match goal with |- Sorted _ (Array_sort _ ?l) => specialize (S l) end.
    induction S as [| a l Hs IH Hd]; constructor; [exact IH |].
    destruct Hd as [| b l Hb]; constructor.
    unfold localeCompare, String.leb in *.
    destruct (String.compare b a); cbv in *; congruence.
Qed.

Lemma isDate_month d : isDate d = true -> isMonthKey (slice0 7 d) = true.
Proof.
  unfold isDate, isMonthKey, slice0.
  do 10 (destruct d as [| ? d]; [discriminate |]).
  destruct d; [| discriminate].
  cbn [list_ascii_of_string String.substring forallb].
  intros H.
  repeat match type of H with
         | context [isDigit ?c] =>
             destruct (isDigit c); cbn [andb] in H |- *; [| discriminate H]
         end.
  now destruct (isHyphen _).
Qed.

(** X4: [monthOptions] holds [defaultMonth] and the first 7 characters of
    every record's date, and nothing else, and no month twice.  For a
    default month [YYYY-MM] and records dated [YYYY-MM-DD] every option
    is a month key [YYYY-MM] and the options are in strictly descending
    order, the latest month first. *)
Theorem monthOptions_months collection defaultMonth :
  (forall m, In m (monthOptions collection defaultMonth) <->
             m = defaultMonth
             \/ exists item, In item collection /\ slice0 7 (date item) = m)
  /\ NoDup (monthOptions collection defaultMonth)
  /\ (isMonthKey defaultMonth = true -> datesFormatted collection = true ->
      Forall (fun m => isMonthKey m = true) (monthOptions collection defaultMonth)
      /\ StronglySorted laterMonth (monthOptions collection defaultMonth)).
Proof.
  split; [intros m; apply monthOptions_In |].
  split; [apply monthOptions_order |].
  intros Hd Hc. split; [| apply monthOptions_order].
  apply Forall_forall. intros m Hm. apply monthOptions_In in Hm.
  destruct Hm as [-> | (item & Hi & <-)]; [exact Hd |].
  apply isDate_month. unfold datesFormatted in Hc.
  rewrite forallb_forall in Hc. now apply Hc.
Qed.

Example monthOptions_sample :
  monthOptions [rent; coffee;
                {| id := "e6"; description := "Gift"; category := Other;
                   amount := 20; date := "2024-08-09"; notes := None |}]
    "2024-07"
  = ["2024-08"; "2024-07"; "2024-06"]%string.
Proof. reflexivity. Qed.

Lemma monthOptions_head collection defaultMonth :
  exists first rest, monthOptions collection defaultMonth = first :: rest
    /\ forall m, In m (monthOptions collection defaultMonth) -> String.leb m first = true.
Proof.
  destruct (monthOptions_order collection defaultMonth) as [Hs _].
  destruct (monthOptions collection defaultMonth) as [| first rest] eqn:E.
  - assert (H : In defaultMonth (monthOptions collection defaultMonth))
      by (apply monthOptions_In; now left).
    rewrite E in H. destruct H.
  - exists first, rest. split; [reflexivity |].
    inversion Hs as [| ? ? _ F]; subst. rewrite Forall_forall in F.
    intros m [<- | H].
    + now destruct (String.leb_total first first).
    + specialize (F m H). unfold laterMonth, String.ltb, String.leb in *.
      destruct (String.compare m first); congruence.
Qed.

(** X5: after the effect on [monthOptions, selectedMonth] the selected
    month is one of the options; a selection that was one is left alone;
    one that was not is replaced by the first option, which for a
    default month [YYYY-MM] and records dated [YYYY-MM-DD] is the latest
    month; the collection and the budget are untouched, and running the
    effect again changes nothing. *)
Theorem selectedMonthEffect_selects_an_option collection defaultMonth st :
  let options := monthOptions collection defaultMonth in
  let st' := selectedMonthEffect options defaultMonth st in
  In (selectedMonth st') options
  /\ (In (selectedMonth st) options -> st' = st)
  /\ (~ In (selectedMonth st) options ->
      selectedMonth st' = hd defaultMonth options
      /\ (isMonthKey defaultMonth = true -> datesFormatted collection = true ->
          forall m, In m options -> String.leb m (selectedMonth st') = true))
  /\ expenses st' = expenses st /\ budget st' = budget st
  /\ selectedMonthEffect options defaultMonth st' = st'.
Proof.
  intros options st'.
  destruct (monthOptions_head collection defaultMonth) as (first & rest & E & Hmax).
  fold options in E, Hmax.
  assert (V : In (selectedMonth st') options).
  { subst st'. unfold selectedMonthEffect.
    destruct (includes options (selectedMonth st)) eqn:I; simpl.
    - now apply includes_In.
    - rewrite E. now left. }
  split; [exact V |]. split; [| split; [| split; [| split]]].
  - intros H. apply includes_In in H. subst st'. unfold selectedMonthEffect.
    now rewrite H.
  - intros H. subst st'. unfold selectedMonthEffect.
    destruct (includes options (selectedMonth st)) eqn:I; simpl.
    + apply includes_In in I. contradiction.
    + split; [now rewrite E |].
      intros _ _ m Hm. rewrite E at 1. simpl. apply Hmax. exact Hm.
  - subst st'. unfold selectedMonthEffect. now destruct (includes _ _).
  - subst st'. unfold selectedMonthEffect. now destruct (includes _ _).
  - apply includes_In in V. unfold selectedMonthEffect at 1. now rewrite V.
Qed.

Lemma prefix_substring n : forall s, String.prefix (String.substring 0 n s) s = true.
Proof.
  induction n as [| n IH]; intros [| c s]; simpl; try reflexivity.
  destruct (ascii_dec c c); [apply IH | congruence].
Qed.

(** X6: every record is listed under a month of [monthOptions], namely
    the first 7 characters of its date, and [filteredExpenses] of that
    month holds it; every option other than [defaultMonth] has a record
    to show. *)
Theorem months_and_records collection defaultMonth :
  (forall item, In item collection ->
     In (slice0 7 (date item)) (monthOptions collection defaultMonth)
     /\ In item (filteredExpenses collection (slice0 7 (date item))))
  /\ (forall m, In m (monthOptions collection defaultMonth) -> m <> defaultMonth ->
        filteredExpenses collection m <> []).
Proof.
  assert (F : forall item, In item collection ->
                In item (filteredExpenses collection (slice0 7 (date item)))).
  { intros item H. apply filter_In. split; [exact H |]. apply prefix_substring. }
  split.
  - intros item H. split; [| now apply F].
    apply monthOptions_In. right. now exists item.
  - intros m H Hm. apply monthOptions_In in H.
    destruct H as [-> | (item & Hi & <-)]; [contradiction |].
    intros E. specialize (F item Hi). rewrite E in F. destruct F.
Qed.

(** * The expense log *)

Lemma insert_same_date d x l :
  filter (fun e => String.eqb (date e) d)
    (insert (fun a b => localeCompare (date b) (date a)) x l)
  = filter (fun e => String.eqb (date e) d) (x :: l).
Proof.
  induction l as [| y l IH]; [reflexivity |].
  cbn [insert]. destruct (_ <=? 0)%Z eqn:C; [reflexivity |].
  cbn [filter] in *. rewrite IH.
  destruct (String.eqb (date x) d) eqn:Ex; [| reflexivity].
  destruct (String.eqb (date y) d) eqn:Ey; [| reflexivity].
  apply String.eqb_eq in Ex, Ey. exfalso.
  unfold localeCompare in C. rewrite Ex, Ey in C.
  destruct (String.leb_total d d) as [L | L]; unfold String.leb in L;
    destruct (String.compare d d); cbv in C; congruence.
Qed.

(** X7: [sortedExpenses] holds the records of [filteredExpenses], each
    once, with the records of one date in the order they have in the
    collection; when the records are dated [YYYY-MM-DD] they come by
    date, the most recent first. *)
Theorem sortedExpenses_log filtered :
  Permutation filtered (sortedExpenses filtered)
  /\ List.length (sortedExpenses filtered) = List.length filtered
  /\ (forall d, filter (fun e => String.eqb (date e) d) (sortedExpenses filtered)
                = filter (fun e => String.eqb (date e) d) filtered)
  /\ (datesFormatted filtered = true ->
      StronglySorted dateDescending (sortedExpenses filtered)).
Proof.
  unfold sortedExpenses.
  split; [symmetry; apply sortByDateDescending_perm |].
  split; [apply Permutation_length, sortByDateDescending_perm |].
  split; [| intros _; apply sortByDateDescending_strongly_sorted].
  intros d. unfold sortByDateDescending.
  induction filtered as [| x l IH]; [reflexivity |].
  cbn [Array_sort fold_right]. rewrite insert_same_date.
  cbn [filter]. fold (Array_sort (fun a b => localeCompare (date b) (date a)) l).
  now rewrite IH.
Qed.

(** * Removing and adding *)

Lemma filter_all {A} (p : A -> bool) l :
  (forall x, In x l -> p x = true) -> filter p l = l.
Proof.
  induction l as [| x l IH]; intros H; simpl; [reflexivity |].
  rewrite (H x (or_introl eq_refl)), IH; [reflexivity |].
  intros y Hy. apply H. now right.
Qed.

Lemma StronglySorted_filter {A} (R : A -> A -> Prop) (p : A -> bool) l :
  StronglySorted R l -> StronglySorted R (filter p l).
Proof.
  induction 1 as [| x l Hs IH Hx]; simpl; [constructor |].
  destruct (p x); [| exact IH].
  constructor; [exact IH |].
  rewrite Forall_forall in *. intros y Hy. apply filter_In in Hy. now apply Hx.
Qed.

Lemma filter_one_removed (l : list Expense) i :
  NoDup (map id l) -> In i (map id l) ->
  List.length l = S (List.length (filter (fun item => negb (String.eqb (id item) i)) l)).
Proof.
  induction l as [| e l IH]; simpl; [tauto |].
  intros N H. inversion N as [| ? ? Hnotin Nl]; subst.
  destruct (String.eqb_spec (id e) i) as [E | E]; simpl.
  - f_equal. rewrite filter_all; [reflexivity |].
    intros x Hx. apply negb_true_iff, String.eqb_neq. intros Ex.
    apply Hnotin. rewrite E, <- Ex. now apply in_map.
  - f_equal. apply IH; [exact Nl |]. destruct H as [H | H]; [contradiction | exact H].
Qed.

(** X8: removing an id that no record has leaves the whole state as it is. *)
Theorem handleDelete_absent i st :
  ~ In i (map id (expenses st)) -> handleDelete i st = st.
Proof.
  intros H. unfold handleDelete, setExpenses.
  rewrite filter_all; [now destruct st |].
  intros x Hx. apply negb_true_iff, String.eqb_neq. intros E.
  apply H. rewrite <- E. now apply in_map.
Qed.

Lemma handleDelete_absent_witness :
  ~ In "e9"%string (map id [rent; coffee])
  /\ handleDelete "e9" (setExpenses (fun _ => [rent; coffee]) firstRender)
     = setExpenses (fun _ => [rent; coffee]) firstRender.
Proof.
  assert (H : ~ In "e9"%string
                (map id (expenses (setExpenses (fun _ => [rent; coffee]) firstRender))))
    by (simpl; intuition discriminate).
  split; [exact H |].
  exact (handleDelete_absent "e9" _ H).
Defined.

(** X9: [handleDelete] leaves the collection filtered to the records of
    another id: exactly those records, each as often as it was there and
    in the order they had (a collection in date order stays so); it
    leaves the budget, and where ids are distinct and the id is present
    it removes one record. *)
Theorem handleDelete_removes i st :
  let st' := handleDelete i st in
  expenses st' = filter (fun item => negb (String.eqb (id item) i)) (expenses st)
  /\ (forall e, In e (expenses st') <-> In e (expenses st) /\ id e <> i)
  /\ (StronglySorted dateDescending (expenses st) ->
      StronglySorted dateDescending (expenses st'))
  /\ (NoDup (map id (expenses st)) -> In i (map id (expenses st)) ->
      List.length (expenses st) = S (List.length (expenses st')))
  /\ budget st' = budget st.
Proof.
  simpl. split; [reflexivity |]. split; [| split; [| split]].
  - intros e. rewrite filter_In, negb_true_iff, String.eqb_neq. tauto.
  - apply StronglySorted_filter.
  - apply filter_one_removed.
  - reflexivity.
Qed.

Lemma handleSubmit_rejected u st :
  String.eqb (trim (Form.description (form st))) "" = true
  \/ Number_isNaN (Form.amount (form st)) || (Form.amount (form st) <=? 0) = true ->
  expenses (handleSubmit u st) = expenses st.
Proof.
  unfold handleSubmit. cbn [form setError].
  intros [H | H]; rewrite H; [reflexivity |].
  now destruct (String.eqb _ _).
Qed.

(** X10: a second submit right after a submit adds nothing: an accepted
    submit clears the description, and a rejected one leaves the form as
    it was. *)
Theorem handleSubmit_twice u1 u2 st :
  expenses (handleSubmit u2 (handleSubmit u1 st)) = expenses (handleSubmit u1 st).
Proof.
  apply handleSubmit_rejected.
  unfold handleSubmit. cbn [form setError].
  destruct (String.eqb (trim (Form.description (form st))) "") eqn:D;
    [left; exact D |].
  destruct (Number_isNaN (Form.amount (form st)) || (Form.amount (form st) <=? 0)) eqn:A;
    [right; exact A |].
  left. reflexivity.
Qed.

(** X11: an accepted submit makes the collection one record longer, and
    removing the generated id, when no record had it before, gives the
    collection back. *)
Theorem handleSubmit_then_handleDelete uuid st :
  trim (Form.description (form st)) <> EmptyString ->
  (0 <? Form.amount (form st)) = true ->
  ~ In uuid (map id (expenses st)) ->
  List.length (expenses (handleSubmit uuid st)) = S (List.length (expenses st))
  /\ expenses (handleDelete uuid (handleSubmit uuid st)) = expenses st.
Proof.
  intros Hd Ha Hf. destruct (positive_passes _ Ha) as [Hn Hl].
  unfold handleDelete, handleSubmit. cbn.
  destruct (String.eqb_spec (trim (Form.description (form st))) "") as [E | _];
    [contradiction |].
  unfold Number_isNaN. rewrite Hn, Hl. cbn. split; [reflexivity |].
  rewrite String.eqb_refl. cbn.
  apply filter_all. intros x Hx. apply negb_true_iff, String.eqb_neq. intros E.
  apply Hf. rewrite <- E. now apply in_map.
Qed.

(** * The budget slider *)

Lemma handleSubmit_then_handleDelete_witness :
  expenses (handleDelete "e1"
              (handleSubmit "e1" (setForm rentForm (setExpenses (fun _ => [coffee]) firstRender))))
  = [coffee].
Proof.
  set (st := setForm rentForm (setExpenses (fun _ => [coffee]) firstRender)).
  assert (Hd : trim (Form.description (form st)) <> EmptyString)
    by (vm_compute; discriminate).
  assert (Ha : (0 <? Form.amount (form st)) = true) by (vm_compute; reflexivity).
  assert (Hf : ~ In "e1"%string (map id (expenses st)))
    by (simpl; intuition discriminate).
  exact (proj2 (handleSubmit_then_handleDelete "e1" st Hd Ha Hf)).
Defined.

(** * The budget slider *)

(** X12: every value of the budget slider (0 to 10000 in steps of 50)
    is stored as the budget unchanged by the rounding to two decimals,
    and the collection is left alone. *)
Theorem handleBudgetChange_slider k st :
  (0 <= k <= 200)%Z ->
  budget (handleBudgetChange (ofZ (50 * k)) st) = ofZ (50 * k)
  /\ expenses (handleBudgetChange (ofZ (50 * k)) st) = expenses st.
Proof.
  intros H. split; [| reflexivity]. cbn [handleBudgetChange setBudget budget].
  assert (A : forallb (fun i => Leibniz.eqb (toFixed2 (ofZ (50 * Z.of_nat i)))
                                  (ofZ (50 * Z.of_nat i)))
                (seq 0 201) = true) by (vm_compute; reflexivity).
  rewrite forallb_forall in A.
  specialize (A (Z.to_nat k)). rewrite Z2Nat.id in A by lia.
  apply FloatAxioms.Leibniz.eqb_spec, A, in_seq. lia.
Qed.

Lemma handleBudgetChange_slider_witness :
  budget (handleBudgetChange (ofZ (50 * 37)) firstRender) = 1850.
Proof.
  assert (H : (0 <= 37 <= 200)%Z) by lia.
  rewrite (proj1 (handleBudgetChange_slider 37 firstRender H)).
  vm_compute. reflexivity.
Defined.

(** * Hydration and the store *)

(** X13: the hydration effect run a second time over the store it has
    just read leaves the state it produced the first time. *)
Theorem hydrate_twice storage st :
  let first := hydrate (Some storage) st in
  fst (hydrate (snd first) (fst first)) = fst first.
Proof.
  unfold hydrate, getItem_expenses, getItem_budget, hydrateTry. cbn.
  destruct (storedExpenses storage) as [| | | | parsed]; cbn;
    try (destruct (storedBudget storage) as [| | b]; cbn;
         try destruct (Number_isNaN b); reflexivity).
  destruct (filterWellFormed parsed) as [kept |]; cbn; [| reflexivity].
  destruct (sortStored kept) as [sorted |]; cbn; [| reflexivity].
  destruct (storedBudget storage) as [| | b]; cbn;
    try destruct (Number_isNaN b); reflexivity.
Qed.

(** X14: as long as the hydration effect has not run, no save effect and
    no user action changes the store or sets [isReady]. *)
Theorem store_untouched_before_hydration se sb dm iso events :
  existsb isRunHydrate events = false ->
  window (run (mounted se sb dm iso) events) = window (mounted se sb dm iso)
  /\ isReady (state (run (mounted se sb dm iso) events)) = false.
Proof.
  unfold run.
  assert (G : forall evs w w0,
             window w = window w0 -> isReady (state w) = false ->
             existsb isRunHydrate evs = false ->
             window (fold_left step evs w) = window w0
             /\ isReady (state (fold_left step evs w)) = false).
  { induction evs as [| ev evs IH]; intros w w0 W R H; cbn [fold_left]; [now split |].
    cbn [existsb] in H. apply orb_false_elim in H. destruct H as [Hev H].
    apply IH; [| | exact H];
      destruct ev; try discriminate Hev; cbn [step window state];
      unfold saveExpenses, saveBudget; rewrite ?R, ?handleSubmit_isReady;
      cbn; assumption. }
  intros H. apply (G events); auto.
Qed.

Lemma store_untouched_before_hydration_witness :
  window (run (mounted (ExpensesArray [stringifyExpense rent]) (BudgetText 500)
                 "2024-06" "2024-06-15")
            [Edit coffeeForm; Submit "e2"; RunSaveExpenses; BudgetChange 50; RunSaveBudget])
  = Some {| storedExpenses := ExpensesArray [stringifyExpense rent];
            storedBudget := BudgetText 500; calls := [] |}.
Proof.
  exact (proj1 (store_untouched_before_hydration
                  (ExpensesArray [stringifyExpense rent]) (BudgetText 500)
                  "2024-06" "2024-06-15"
                  [Edit coffeeForm; Submit "e2"; RunSaveExpenses; BudgetChange 50;
                   RunSaveBudget] eq_refl)).
Defined.





